(** * InteropService: module registry, module resolver, import and export pipelines

    Shallow embedding of
    [ReactNativeClient/lib/services/interop/InteropService.ts].

    - JavaScript values that may be [null] or [undefined] are [option]s;
      a string is "truthy" when it is not empty.
    - The enumerations of [./types] ([ModuleType], [FileSystemItem],
      [ImportModuleOutputFormat]) are inductive types; their members are
      non-empty string constants, hence truthy, so "supplied" means
      "not null".
    - The item store ([Folder], [Note], [NoteTag], [BaseItem], [Resource])
      and the converter instances are external collaborators: the store is a
      record of functions, a converter is a record of state transformers
      that either return or throw.
    - A run is a computation in a small state-and-exception monad whose
      state carries the converter state, the shared export context, the
      warnings of the result and the log of converter calls. *)

From Stdlib Require Import List String Ascii Bool Arith Lia.
Import ListNotations.
Open Scope string_scope.
Open Scope list_scope.

Set Implicit Arguments.

(* ================================================================== *)
(** ** Data model *)

(** Item ids are strings. *)
Abbreviation Id := string.

Inductive ModuleType := Importer | Exporter.
Inductive FileSystemItem := File | Directory.
Inductive ImportModuleOutputFormat := Markdown | Html.

(** [BaseModel.TYPE_FOLDER], [TYPE_RESOURCE], [TYPE_NOTE], [TYPE_TAG],
    [TYPE_NOTE_TAG]: the five item types the export queue holds. *)
Inductive ItemType := TYPE_FOLDER | TYPE_RESOURCE | TYPE_NOTE | TYPE_TAG | TYPE_NOTE_TAG.

Definition ModuleType_eqb (a b : ModuleType) : bool :=
  match a, b with
  | Importer, Importer | Exporter, Exporter => true
  | _, _ => false
  end.

Definition FileSystemItem_eqb (a b : FileSystemItem) : bool :=
  match a, b with
  | File, File | Directory, Directory => true
  | _, _ => false
  end.

Definition OutputFormat_eqb (a b : ImportModuleOutputFormat) : bool :=
  match a, b with
  | Markdown, Markdown | Html, Html => true
  | _, _ => false
  end.

Definition ItemType_eqb (a b : ItemType) : bool :=
  match a, b with
  | TYPE_FOLDER, TYPE_FOLDER | TYPE_RESOURCE, TYPE_RESOURCE
  | TYPE_NOTE, TYPE_NOTE | TYPE_TAG, TYPE_TAG
  | TYPE_NOTE_TAG, TYPE_NOTE_TAG => true
  | _, _ => false
  end.

(** A string used as a condition: [''] is falsy. *)
Definition nonEmpty (s : string) : bool :=
  match s with
  | EmptyString => false
  | String _ _ => true
  end.

(** [x ? x : d] for an optional string. *)
Definition truthyString (s : option string) : option string :=
  match s with
  | Some v => if nonEmpty v then Some v else None
  | None => None
  end.

(** [String.prototype.toLowerCase], on the ASCII letters. *)
Definition lowerAscii (c : ascii) : ascii :=
  let n := nat_of_ascii c in
  if ((65 <=? n)%nat && (n <=? 90)%nat)%bool then ascii_of_nat (n + 32) else c.

Fixpoint toLowerCase (s : string) : string :=
  match s with
  | EmptyString => EmptyString
  | String c r => String (lowerAscii c) (toLowerCase r)
  end.

(** [Array.prototype.indexOf(x) >= 0] on an array of strings. *)
Definition includes (x : string) (l : list string) : bool :=
  existsb (String.eqb x) l.

(** The name of a custom factory stands for the function stored in
    [instanceFactory]. *)
Definition Factory := string.

(** Module descriptor ([Module] of [./types]), with the fields this file
    reads. *)
Module Mod.
Record t := mk {
    type : ModuleType;
    format : string;
    fileExtensions : option (list string);
    sources : option (list FileSystemItem);
    target : option FileSystemItem;
    outputFormat : option ImportModuleOutputFormat;
    isDefault : bool;
    importerClass : option string;
    instanceFactory : option Factory;
    description : string
}.
End Mod.

(** A stored item, with the fields the export pipeline reads. *)
Module Item.
Record t := mk {
    id : Id;
    title : option string;
    body : string;
    encryption_applied : bool;
    encryption_blob_encrypted : bool
}.
End Item.

(** A row of [NoteTag.all()]. *)
Module NoteTag.
Record t := mk {
    id : Id;
    note_id : Id;
    tag_id : Id
}.
End NoteTag.

(** Import and export options, as one object with optional fields. *)
Module Options.
Record t := mk {
    path : string;
    format : option string;
    destinationFolderId : option Id;
    destinationFolder : option Item.t;
    modulePath : option string;
    outputFormat : option ImportModuleOutputFormat;
    target : option FileSystemItem;
    sourceFolderIds : option (list Id);
    sourceNoteIds : option (list Id)
}.
End Options.

Record ImportExportResult := { warnings : list string }.

(** The errors a run can end with.  The localised messages of [_()] are
    kept as constructors holding the message's arguments;
    [TypeError] is the engine's error for a property read on [null] or
    [undefined]; [Thrown] is an error raised by a converter. *)
Inductive Error :=
| CannotFind (what : string)
| PleaseSpecifyImportFormat (path : string)
| CannotLoadModuleForOutput (type : ModuleType) (format : string)
                            (outputFormat : ImportModuleOutputFormat)
| CannotLoadModuleForTarget (type : ModuleType) (format : option string)
                            (target : option FileSystemItem)
| TypeError (subject : string)
| Thrown (message : string).

(** A call either returns a value or throws. *)
Inductive Result (E A : Type) :=
| Ok (a : A)
| Err (e : E).
Arguments Ok {E A} a.
Arguments Err {E A} e.

Abbreviation Res := (Result Error).

(** The outcome of a converter call: it returns, or throws an error with a
    message. *)
Abbreviation Outcome := (Result string unit).
Abbreviation Returned := (Ok tt).
Abbreviation Threw := Err.

(* ================================================================== *)
(** ** Module registry *)

(** The two lists of the service object: the built-in descriptors and the
    registered ones. *)
Record InteropService := {
  defaultModules_ : list Mod.t;
  userModules_ : list Mod.t
}.

Definition modules (this : InteropService) : list Mod.t :=
  defaultModules_ this ++ userModules_ this.

(** The body of the loop of [findModuleByFormat_]: [matches] after module
    [m] has been looked at. *)
Definition findModuleByFormat_step (type : ModuleType) (format : string)
    (target : option FileSystemItem)
    (outputFormat : option ImportModuleOutputFormat)
    (matches : list Mod.t) (m : Mod.t) : list Mod.t :=
  if String.eqb (Mod.format m) format && ModuleType_eqb (Mod.type m) type then
    match target, outputFormat with
    | None, None => matches ++ [m]
    | _, _ =>
      if match target, Mod.target m with
         | Some t, Some mt => FileSystemItem_eqb t mt
         | _, _ => false
         end
      then matches ++ [m]
      else if match outputFormat, Mod.outputFormat m with
              | Some o, Some mo => OutputFormat_eqb o mo
              | _, _ => false
              end
      then matches ++ [m]
      else matches
    end
  else matches.

Definition findModuleByFormat_ (this : InteropService) (type : ModuleType)
    (format : string) (target : option FileSystemItem)
    (outputFormat : option ImportModuleOutputFormat) : option Mod.t :=
  let matches :=
    fold_left (findModuleByFormat_step type format target outputFormat)
              (modules this) [] in
  match find Mod.isDefault matches with
  | Some output => Some output
  | None => match matches with
            | m :: _ => Some m
            | [] => None
            end
  end.

(** The loop of [moduleByFileExtension_]: it returns at the first hit. *)
Fixpoint moduleByFileExtension_loop (type : ModuleType) (ext : string)
    (ms : list Mod.t) : option Mod.t :=
  match ms with
  | [] => None
  | m :: rest =>
    if negb (ModuleType_eqb type (Mod.type m)) then
      moduleByFileExtension_loop type ext rest
    else
      match Mod.fileExtensions m with
      | Some exts =>
        if includes ext exts then Some m
        else moduleByFileExtension_loop type ext rest
      | None => moduleByFileExtension_loop type ext rest
      end
  end.

Definition moduleByFileExtension_ (this : InteropService) (type : ModuleType)
    (ext : string) : option Mod.t :=
  let ext := toLowerCase ext in
  moduleByFileExtension_loop type ext (modules this).

(* ================================================================== *)
(** ** External collaborators *)

(** What the service calls outside this file: the host's file check
    ([shim.fsDriver().exists]), [fileExtension] of [lib/path-utils],
    [toTitleCase] of [lib/string-utils], [JSON.stringify] on an id, and the
    item store.  [load t] is [BaseItem.getClassByItemType(t).load];
    [Note.load] is [load TYPE_NOTE] and [Folder.load] is [load TYPE_FOLDER]. *)
Record Host := {
  fsDriver_exists : string -> bool;
  fileExtension : string -> string;
  toTitleCase : string -> string;
  JSON_stringify : Id -> string;
  load : ItemType -> Id -> option Item.t;
  tableName : ItemType -> string;
  modelTypeToName : ItemType -> string;
  Folder_childrenIds : Id -> option bool -> list Id;
  Folder_noteIds : Id -> list Id;
  Note_linkedResourceIds : string -> list Id;
  NoteTag_all : list NoteTag.t;
  Resource_fullPath : Item.t -> string
}.

(** Modelled from the spec: [ArrayUtils.unique] of [lib/ArrayUtils], which is
    not among the sources ("deduplicate the collected attachment ids and
    enqueue one Attachment entry per unique id").  The first occurrence of
    every element is kept, in order. *)
Fixpoint unique_from (seen : list Id) (l : list Id) : list Id :=
  match l with
  | [] => []
  | x :: rest =>
    if includes x seen then unique_from seen rest
    else x :: unique_from (x :: seen) rest
  end.

Definition ArrayUtils_unique (array : list Id) : list Id := unique_from [] array.

(* ================================================================== *)
(** ** Module resolver *)

(** How the converter object is built. *)
Inductive Construction :=
| Importer_Custom (factory : Factory)
| Exporter_Custom (factory : Factory)
| FromClass (path : string).

(** The argument of [setMetadata]: the descriptor, with the call's options
    under the key [options] for path-based resolution. *)
Record Metadata := {
  md_options : option Options.t;
  md_module : Mod.t
}.

Record ModuleInstance := {
  construction : Construction;
  metadata : Metadata
}.

Definition modulePath (host : Host) (module : Mod.t) : string :=
  let className :=
    match Mod.type module with
    | Importer =>
      match truthyString (Mod.importerClass module) with
      | Some c => c
      | None => String.append "InteropService_Importer_"
                              (toTitleCase host (Mod.format module))
      end
    | Exporter => String.append "InteropService_Exporter_"
                                (toTitleCase host (Mod.format module))
    end in
  String.append "lib/services/interop/" className.

Definition newModuleFromCustomFactory (module : Mod.t) (factory : Factory)
    : Construction :=
  match Mod.type module with
  | Importer => Importer_Custom factory
  | Exporter => Exporter_Custom factory
  end.

(** [outputFormat = None] is the omitted argument, which defaults to
    [Markdown]. *)
Definition newModuleByFormat_ (host : Host) (this : InteropService)
    (type : ModuleType) (format : string)
    (outputFormat : option ImportModuleOutputFormat) : Res ModuleInstance :=
  let outputFormat :=
    match outputFormat with Some o => o | None => Markdown end in
  match findModuleByFormat_ this type format None (Some outputFormat) with
  | None => Err (CannotLoadModuleForOutput type format outputFormat)
  | Some moduleMetadata =>
    let output :=
      match Mod.instanceFactory moduleMetadata with
      | Some factory => newModuleFromCustomFactory moduleMetadata factory
      | None => FromClass (modulePath host moduleMetadata)
      end in
    Ok {| construction := output;
          metadata := {| md_options := None; md_module := moduleMetadata |} |}
  end.

(** [this.findModuleByFormat_(type, options.format, options.target)]: a
    missing [options.format] is [undefined], which is [===] to no module's
    format. *)
Definition findModuleByOptions (this : InteropService) (type : ModuleType)
    (options : Options.t) : option Mod.t :=
  match Options.format options with
  | Some format => findModuleByFormat_ this type format (Options.target options) None
  | None => None
  end.

(** [options = None] is a [null] or [undefined] argument. *)
Definition newModuleFromPath_ (host : Host) (this : InteropService)
    (type : ModuleType) (options : option Options.t) : Res ModuleInstance :=
  let modulePath0 :=
    match options with
    | Some o => match truthyString (Options.modulePath o) with
                | Some p => p
                | None => EmptyString
                end
    | None => EmptyString
    end in
  match options with
  | None => Err (TypeError "options")
  | Some o =>
    let computed :=
      if negb (nonEmpty modulePath0) then
        match findModuleByOptions this type o with
        | None => Err (CannotLoadModuleForTarget type (Options.format o)
                                                 (Options.target o))
        | Some moduleMetadata => Ok (modulePath host moduleMetadata)
        end
      else Ok modulePath0 in
    match computed with
    | Err e => Err e
    | Ok modulePath1 =>
      match findModuleByOptions this type o with
      | None => Err (TypeError "moduleMetadata")
      | Some moduleMetadata =>
        let output :=
          match Mod.instanceFactory moduleMetadata with
          | Some factory => newModuleFromCustomFactory moduleMetadata factory
          | None => FromClass modulePath1
          end in
        Ok {| construction := output;
              metadata := {| md_options := Some o;
                             md_module := moduleMetadata |} |}
      end
    end
  end.

(* ================================================================== *)
(** ** Converters, export queue and run state *)

Inductive ItemOrId :=
| ById (id : Id)
| Loaded (item : Item.t).

(** An element of [itemsToExport]. *)
Module Entry.
Record t := mk {
  type : ItemType;
  itemOrId : ItemOrId
}.
End Entry.

(** The shared export context: [resourcePaths] maps a resource id to its
    path, in insertion order. *)
Record Context := {
  resourcePaths : list (Id * string)
}.

(** [context.resourcePaths[id] = path] *)
Fixpoint setProperty (id : Id) (path : string) (o : list (Id * string))
    : list (Id * string) :=
  match o with
  | [] => [(id, path)]
  | (k, v) :: rest =>
    if String.eqb k id then (k, path) :: rest
    else (k, v) :: setProperty id path rest
  end.

(** The lifecycle contract of an importer, over its own state [St]. *)
Module Imp.
Record t (St : Type) := mk {
  init : string -> Options.t -> St -> St * Outcome;
  exec : ImportExportResult -> St -> St * Result string ImportExportResult
}.
End Imp.

(** The lifecycle contract of an exporter. *)
Module Exp.
Record t (St : Type) := mk {
  init : option string -> Options.t -> St -> St * Outcome;
  prepareForProcessingItemType : ItemType -> list Entry.t -> St -> St * Outcome;
  updateContext : Context -> St -> St * Outcome;
  processResource : Item.t -> string -> St -> St * Outcome;
  processItem : ItemType -> Item.t -> St -> St * Outcome;
  close : St -> St * Outcome
}.
End Exp.

(** The log of a run: every converter call with its outcome, every warning
    pushed on the result, and [EvEntry i] when the dispatch loop has
    selected position [i] of the queue (the test [itemType !== type] has
    let it through). *)
Inductive Event :=
| EvInit (path : option string) (options : Options.t) (o : Outcome)
| EvExec (result : ImportExportResult) (o : Result string ImportExportResult)
| EvPrepare (type : ItemType) (itemsToExport : list Entry.t) (o : Outcome)
| EvEntry (i : nat)
| EvUpdateContext (context : Context) (o : Outcome)
| EvProcessResource (item : Item.t) (path : string) (o : Outcome)
| EvProcessItem (type : ItemType) (item : Item.t) (o : Outcome)
| EvWarning (w : string)
| EvClose (o : Outcome).

Record RunState (St : Type) := {
  converter : St;
  context : Context;
  result : ImportExportResult;
  trace : list Event
}.

Definition initialState {St : Type} (st0 : St) : RunState St :=
  {| converter := st0;
     context := {| resourcePaths := [] |};
     result := {| warnings := [] |};
     trace := [] |}.

Definition logEvent {St : Type} (ev : Event) (s : RunState St) : RunState St :=
  {| converter := converter s; context := context s; result := result s;
     trace := trace s ++ [ev] |}.

Definition setConverter {St : Type} (st : St) (s : RunState St) : RunState St :=
  {| converter := st; context := context s; result := result s;
     trace := trace s |}.

Definition setContext {St : Type} (c : Context) (s : RunState St) : RunState St :=
  {| converter := converter s; context := c; result := result s;
     trace := trace s |}.

(** [result.warnings.push(w)] *)
Definition pushWarning {St : Type} (w : string) (s : RunState St) : RunState St :=
  {| converter := converter s; context := context s;
     result := {| warnings := warnings (result s) ++ [w] |};
     trace := trace s ++ [EvWarning w] |}.

(** A step of a run: it reads and writes the run state and returns a value
    or throws an [E]. *)
Definition M (St E A : Type) := RunState St -> Result E A * RunState St.

Definition ret {St E A : Type} (a : A) : M St E A := fun s => (Ok a, s).

Definition bind {St E A B : Type} (m : M St E A) (k : A -> M St E B)
    : M St E B :=
  fun s => match m s with
           | (Ok a, s') => k a s'
           | (Err e, s') => (Err e, s')
           end.

Definition throw {St E A : Type} (e : E) : M St E A := fun s => (Err e, s).

Definition lift {St E A : Type} (r : Result E A) : M St E A := fun s => (r, s).

(** [try { body } catch (error) { handler(error) }] *)
Definition try_catch {St E E' A : Type} (body : M St E A)
    (handler : E -> M St E' A) : M St E' A :=
  fun s => match body s with
           | (Ok a, s') => (Ok a, s')
           | (Err e, s') => handler e s'
           end.

(** A converter call: the converter's state advances, the call is logged
    with its outcome, and a throw carries the error's message. *)
Definition call {St A : Type} (f : St -> St * Result string A)
    (ev : Result string A -> Event) : M St string A :=
  fun s => let (st', o) := f (converter s) in
           (o, logEvent (ev o) (setConverter st' s)).

(** A converter call outside any [try]: its error is the run's error. *)
Definition uncaught {St A : Type} (m : M St string A) : M St Error A :=
  try_catch m (fun message => throw (Thrown message)).

Declare Scope run_scope.
Delimit Scope run_scope with run.
Notation "x <- c1 ;; c2" := (bind c1 (fun x => c2))
  (at level 61, c1 at next level, right associativity) : run_scope.
Notation "c1 ;; c2" := (bind c1 (fun _ => c2))
  (at level 61, right associativity) : run_scope.

(* ================================================================== *)
(** ** Warnings of the export pipeline *)

Definition dquote : string := String (ascii_of_nat 34) EmptyString.

Definition concat_strings (parts : list string) : string :=
  fold_right String.append EmptyString parts.

Definition missingResourceWarning (itemOrId : Id) : string :=
  concat_strings
    ["A resource that does not exist is referenced in a note. The resource was skipped. Resource ID: ";
     itemOrId].

Definition missingItemWarning (host : Host) (itemType : ItemType)
    (itemOrId : Id) : string :=
  concat_strings
    ["Cannot find item with type "; dquote; tableName host itemType; dquote;
     " and ID "; JSON_stringify host itemOrId; ". Item was skipped."].

Definition encryptedWarning (host : Host) (itemType : ItemType)
    (item : Item.t) : string :=
  concat_strings
    ["This item is currently encrypted: "; modelTypeToName host itemType;
     " "; dquote;
     match truthyString (Item.title item) with
     | Some title => title
     | None => Item.id item
     end;
     dquote; " ("; Item.id item;
     ") and was not exported. You may wait for it to be decrypted and try again."].

(** [{ format: 'jex', ...options }] *)
Definition exportDefaults (options : Options.t) : Options.t :=
  {| Options.path := Options.path options;
     Options.format := match Options.format options with
                       | Some f => Some f
                       | None => Some "jex"
                       end;
     Options.destinationFolderId := Options.destinationFolderId options;
     Options.destinationFolder := Options.destinationFolder options;
     Options.modulePath := Options.modulePath options;
     Options.outputFormat := Options.outputFormat options;
     Options.target := Options.target options;
     Options.sourceFolderIds := Options.sourceFolderIds options;
     Options.sourceNoteIds := Options.sourceNoteIds options |}.

(* ================================================================== *)
(** ** Import and export pipelines *)

Section Pipelines.

Variable host : Host.
Variable this : InteropService.
Variable St : Type.

Open Scope run_scope.

(** *** Import *)

(** The importer instance that the resolved module constructs. *)
Variable importer : Imp.t St.

Definition importM (options : Options.t) : M St Error ImportExportResult :=
  if negb (fsDriver_exists host (Options.path options)) then
    throw (CannotFind (Options.path options))
  else
    let format0 :=
      match Options.format options with Some f => f | None => "auto" end in
    format <-
      (if String.eqb format0 "auto" then
         match moduleByFileExtension_ this Importer
                 (fileExtension host (Options.path options)) with
         | None => throw (PleaseSpecifyImportFormat (Options.path options))
         | Some module => ret (Mod.format module)
         end
       else ret format0) ;;
    destinationFolder <-
      match truthyString (Options.destinationFolderId options) with
      | Some folderId =>
        match load host TYPE_FOLDER folderId with
        | None => throw (CannotFind folderId)
        | Some folder => ret (Some folder)
        end
      | None => ret (Options.destinationFolder options)
      end ;;
    let options :=
      {| Options.path := Options.path options;
         Options.format := Some format;
         Options.destinationFolderId := Options.destinationFolderId options;
         Options.destinationFolder := destinationFolder;
         Options.modulePath := Options.modulePath options;
         Options.outputFormat := Options.outputFormat options;
         Options.target := Options.target options;
         Options.sourceFolderIds := Options.sourceFolderIds options;
         Options.sourceNoteIds := Options.sourceNoteIds options |} in
    _ <- lift (match truthyString (Options.modulePath options) with
               | Some _ => newModuleFromPath_ host this Importer (Some options)
               | None => newModuleByFormat_ host this Importer format
                                            (Options.outputFormat options)
               end) ;;
    uncaught (call (Imp.init importer (Options.path options) options)
                   (EvInit (Some (Options.path options)) options)) ;;
    result <- uncaught (call (Imp.exec importer {| warnings := [] |})
                             (EvExec {| warnings := [] |})) ;;
    ret result.

Definition import (st0 : St) (options : Options.t)
    : Res ImportExportResult * RunState St :=
  importM options (initialState st0).

(** *** Export: collection *)

Record Collecting := {
  itemsToExport : list Entry.t;
  exportedNoteIds : list Id;
  resourceIds : list Id
}.

Definition queueExportItem (itemType : ItemType) (itemOrId : ItemOrId)
    (c : Collecting) : Collecting :=
  {| itemsToExport :=
       itemsToExport c ++ [{| Entry.type := itemType; Entry.itemOrId := itemOrId |}];
     exportedNoteIds := exportedNoteIds c;
     resourceIds := resourceIds c |}.

(** [a.length && a.indexOf(x) < 0] *)
Definition filteredOut (filter : list Id) (x : Id) : bool :=
  match filter with
  | [] => false
  | _ :: _ => negb (includes x filter)
  end.

(** The loop over the notes of one folder.  A note that does not load is
    queued as [null] and the read of its [body] throws. *)
Fixpoint collectNotes (sourceNoteIds : list Id) (noteIds : list Id)
    (c : Collecting) : Res Collecting :=
  match noteIds with
  | [] => Ok c
  | noteId :: rest =>
    if filteredOut sourceNoteIds noteId then collectNotes sourceNoteIds rest c
    else
      match load host TYPE_NOTE noteId with
      | None => Err (TypeError "note")
      | Some note =>
        let c := queueExportItem TYPE_NOTE (Loaded note) c in
        let rids := Note_linkedResourceIds host (Item.body note) in
        collectNotes sourceNoteIds rest
          {| itemsToExport := itemsToExport c;
             exportedNoteIds := exportedNoteIds c ++ [noteId];
             resourceIds := resourceIds c ++ rids |}
      end
  end.

(** The loop over [folderIds]. *)
Fixpoint collectFolders (sourceFolderIds sourceNoteIds : list Id)
    (folderIds : list Id) (c : Collecting) : Res Collecting :=
  match folderIds with
  | [] => Ok c
  | folderId :: rest =>
    if filteredOut sourceFolderIds folderId then
      collectFolders sourceFolderIds sourceNoteIds rest c
    else
      let c := match sourceNoteIds with
               | [] => queueExportItem TYPE_FOLDER (ById folderId) c
               | _ :: _ => c
               end in
      match collectNotes sourceNoteIds (Folder_noteIds host folderId) c with
      | Err e => Err e
      | Ok c => collectFolders sourceFolderIds sourceNoteIds rest c
      end
  end.

(** The loop over [noteTags]; [exportedTagIds] is returned with the queue. *)
Fixpoint collectNoteTags (exportedNoteIds : list Id) (noteTags : list NoteTag.t)
    (queue : list Entry.t) (exportedTagIds : list Id)
    : list Entry.t * list Id :=
  match noteTags with
  | [] => (queue, exportedTagIds)
  | noteTag :: rest =>
    if negb (includes (NoteTag.note_id noteTag) exportedNoteIds) then
      collectNoteTags exportedNoteIds rest queue exportedTagIds
    else
      collectNoteTags exportedNoteIds rest
        (queue ++ [{| Entry.type := TYPE_NOTE_TAG;
                      Entry.itemOrId := ById (NoteTag.id noteTag) |}])
        (exportedTagIds ++ [NoteTag.tag_id noteTag])
  end.

(** Lines 304 to 370 of [export]: the queue [itemsToExport]. *)
Definition collect (options : Options.t) : Res (list Entry.t) :=
  let sourceFolderIds :=
    match Options.sourceFolderIds options with Some l => l | None => [] end in
  let sourceNoteIds :=
    match Options.sourceNoteIds options with Some l => l | None => [] end in
  let folderIds := Folder_childrenIds host EmptyString (Some true) in
  let fullSourceFolderIds :=
    fold_left (fun full id => full ++ Folder_childrenIds host id None)
              sourceFolderIds sourceFolderIds in
  let sourceFolderIds := fullSourceFolderIds in
  match collectFolders sourceFolderIds sourceNoteIds folderIds
          {| itemsToExport := []; exportedNoteIds := []; resourceIds := [] |} with
  | Err e => Err e
  | Ok c =>
    let resourceIds := ArrayUtils_unique (resourceIds c) in
    let queue :=
      fold_left (fun q rid => q ++ [{| Entry.type := TYPE_RESOURCE;
                                       Entry.itemOrId := ById rid |}])
                resourceIds (itemsToExport c) in
    let (queue, exportedTagIds) :=
      collectNoteTags (exportedNoteIds c) (NoteTag_all host) queue [] in
    Ok (fold_left (fun q tid => q ++ [{| Entry.type := TYPE_TAG;
                                         Entry.itemOrId := ById tid |}])
                  exportedTagIds queue)
  end.

(** *** Export: dispatch *)

(** The exporter instance that the resolved module constructs. *)
Variable exporter : Exp.t St.

Definition typeOrder : list ItemType :=
  [TYPE_FOLDER; TYPE_RESOURCE; TYPE_NOTE; TYPE_TAG; TYPE_NOTE_TAG].

(** The [try] block of the dispatch loop. *)
Definition dispatchItem (itemType : ItemType) (item : Item.t)
    : M St string unit :=
  (if ItemType_eqb itemType TYPE_RESOURCE then
     let resourcePath := Resource_fullPath host item in
     (fun s =>
        let context' :=
          {| resourcePaths :=
               setProperty (Item.id item) resourcePath
                           (resourcePaths (context s)) |} in
        let s := setContext context' s in
        call (Exp.updateContext exporter context') (EvUpdateContext context') s) ;;
     call (Exp.processResource exporter item resourcePath)
          (EvProcessResource item resourcePath)
   else ret tt) ;;
  call (Exp.processItem exporter itemType item) (EvProcessItem itemType item).

(** The body of the dispatch loop for the entry at position [i], once its
    type has been found equal to the current one. *)
Definition processEntry (i : nat) (entry : Entry.t) : M St Error unit :=
  (fun s => (Ok tt, logEvent (EvEntry i) s)) ;;
  let itemType := Entry.type entry in
  let withItem (item : Item.t) : M St Error unit :=
    if Item.encryption_applied item || Item.encryption_blob_encrypted item then
      fun s => (Ok tt, pushWarning (encryptedWarning host itemType item) s)
    else
      try_catch (dispatchItem itemType item)
                (fun message => fun s => (Ok tt, pushWarning message s)) in
  match Entry.itemOrId entry with
  | Loaded item => withItem item
  | ById id =>
    match load host itemType id with
    | None =>
      fun s =>
        (Ok tt,
         pushWarning (if ItemType_eqb itemType TYPE_RESOURCE
                      then missingResourceWarning id
                      else missingItemWarning host itemType id) s)
    | Some item => withItem item
    end
  end.

(** The inner loop, from position [i] on. *)
Fixpoint forEachEntry (type : ItemType) (i : nat) (rest : list Entry.t)
    : M St Error unit :=
  match rest with
  | [] => ret tt
  | entry :: rest' =>
    (if negb (ItemType_eqb (Entry.type entry) type) then ret tt
     else processEntry i entry) ;;
    forEachEntry type (S i) rest'
  end.

(** The outer loop over [typeOrder]. *)
Fixpoint forEachType (types : list ItemType) (itemsToExport : list Entry.t)
    : M St Error unit :=
  match types with
  | [] => ret tt
  | type :: types' =>
    uncaught (call (Exp.prepareForProcessingItemType exporter type itemsToExport)
                   (EvPrepare type itemsToExport)) ;;
    forEachEntry type 0 itemsToExport ;;
    forEachType types' itemsToExport
  end.

Definition exportM (options : Options.t) : M St Error ImportExportResult :=
  let options := exportDefaults options in
  let exportPath := truthyString (Some (Options.path options)) in
  itemsToExport <- lift (collect options) ;;
  _ <- lift (newModuleFromPath_ host this Exporter (Some options)) ;;
  uncaught (call (Exp.init exporter exportPath options)
                 (EvInit exportPath options)) ;;
  forEachType typeOrder itemsToExport ;;
  uncaught (call (Exp.close exporter) EvClose) ;;
  (fun s => (Ok (result s), s)).

Definition export (st0 : St) (options : Options.t)
    : Res ImportExportResult * RunState St :=
  exportM options (initialState st0).

End Pipelines.

(* ================================================================== *)
(** ** What the specification says, for comparison with the code *)

Definition sameTypeAndFormat (type : ModuleType) (format : string)
    (m : Mod.t) : bool :=
  String.eqb (Mod.format m) format && ModuleType_eqb (Mod.type m) type.

Definition targetIs (t : FileSystemItem) (m : Mod.t) : bool :=
  match Mod.target m with
  | Some mt => FileSystemItem_eqb t mt
  | None => false
  end.

Definition outputFormatIs (o : ImportModuleOutputFormat) (m : Mod.t) : bool :=
  match Mod.outputFormat m with
  | Some mo => OutputFormat_eqb o mo
  | None => false
  end.


(** "Among candidates, return the first with isDefault=true; otherwise
    return the first candidate in list order; not found if the candidate
    set is empty". *)
Definition firstDefaultOrFirst (l : list Mod.t) : option Mod.t :=
  match find Mod.isDefault l with
  | Some m => Some m
  | None => hd_error l
  end.

(** A module lists the extension [ext], compared as it is written. *)
Definition listsExtension (ext : string) (m : Mod.t) : bool :=
  match Mod.fileExtensions m with
  | Some exts => includes ext exts
  | None => false
  end.

(** The positions, counted from [i], of the entries of type [t]. *)
Fixpoint positionsFrom (i : nat) (t : ItemType) (q : list Entry.t) : list nat :=
  match q with
  | [] => []
  | e :: rest =>
    if ItemType_eqb (Entry.type e) t then i :: positionsFrom (S i) t rest
    else positionsFrom (S i) t rest
  end.

Definition positionsOf (t : ItemType) (q : list Entry.t) : list nat :=
  positionsFrom 0 t q.

(** The queue entries of type [t] held by the id [id]. *)
Definition countEntries (t : ItemType) (id : Id) (q : list Entry.t) : nat :=
  List.length (filter (fun e => ItemType_eqb (Entry.type e) t &&
                           match Entry.itemOrId e with
                           | ById i => String.eqb i id
                           | Loaded _ => false
                           end) q).

(** Queue entries, by kind. *)
Definition entryById (t : ItemType) (id : Id) : Entry.t :=
  {| Entry.type := t; Entry.itemOrId := ById id |}.

Definition noteEntry (note : Item.t) : Entry.t :=
  {| Entry.type := TYPE_NOTE; Entry.itemOrId := Loaded note |}.

Definition hasType (t : ItemType) (e : Entry.t) : bool :=
  ItemType_eqb (Entry.type e) t.

(** The label-assignments whose note has been exported. *)
Definition exportedNoteTags (host : Host) (exportedNoteIds : list Id)
    : list NoteTag.t :=
  filter (fun noteTag => includes (NoteTag.note_id noteTag) exportedNoteIds)
         (NoteTag_all host).

(** How often [id] occurs in a list of ids. *)
Definition occurrences (id : Id) (l : list Id) : nat :=
  List.length (filter (fun i => String.eqb i id) l).

(* ================================================================== *)
(** ** The shape of an export log, for the statements about dispatch *)

(** The item an entry resolves to: the object it holds, or what the store
    loads for its id. *)
Definition resolved (host : Host) (e : Entry.t) : option Item.t :=
  match Entry.itemOrId e with
  | Loaded item => Some item
  | ById id => load host (Entry.type e) id
  end.

Definition stillEncrypted (item : Item.t) : bool :=
  Item.encryption_applied item || Item.encryption_blob_encrypted item.

Definition missingWarning (host : Host) (t : ItemType) (id : Id) : string :=
  if ItemType_eqb t TYPE_RESOURCE then missingResourceWarning id
  else missingItemWarning host t id.

(** After a call with outcome [o]: the rest of the entry's calls when it
    returned, the warning with the error's message when it threw. *)
Definition answer (o : Outcome) (next : list Event) : list Event :=
  match o with
  | Returned => next
  | Threw message => [EvWarning message]
  end.

(** The calls for one item, given their outcomes: for a resource,
    [updateContext] and [processResource] first; then [processItem]. *)
Definition itemCalls (host : Host) (t : ItemType) (item : Item.t)
    (c : Context) (o1 o2 o3 : Outcome) : list Event :=
  if ItemType_eqb t TYPE_RESOURCE then
    EvUpdateContext c o1 ::
    answer o1 (EvProcessResource item (Resource_fullPath host item) o2 ::
               answer o2 (EvProcessItem t item o3 :: answer o3 []))
  else EvProcessItem t item o3 :: answer o3 [].

(** What the log holds for one entry, after its [EvEntry]. *)
Inductive EntryBody (host : Host) (e : Entry.t) : list Event -> Prop :=
| body_missing id :
    Entry.itemOrId e = ById id ->
    load host (Entry.type e) id = None ->
    EntryBody host e [EvWarning (missingWarning host (Entry.type e) id)]
| body_encrypted item :
    resolved host e = Some item ->
    stillEncrypted item = true ->
    EntryBody host e [EvWarning (encryptedWarning host (Entry.type e) item)]
| body_calls item c o1 o2 o3 :
    resolved host e = Some item ->
    stillEncrypted item = false ->
    EntryBody host e (itemCalls host (Entry.type e) item c o1 o2 o3).

(** The log of the inner loop for the type [t], from position [i] on. *)
Inductive TypeBlock (host : Host) (t : ItemType)
    : nat -> list Entry.t -> list Event -> Prop :=
| block_end i : TypeBlock host t i [] []
| block_other i e q tr :
    Entry.type e <> t ->
    TypeBlock host t (S i) q tr ->
    TypeBlock host t i (e :: q) tr
| block_entry i e q body tr :
    Entry.type e = t ->
    EntryBody host e body ->
    TypeBlock host t (S i) q tr ->
    TypeBlock host t i (e :: q) (EvEntry i :: body ++ tr).

(** The log of the outer loop over the types [ts]. *)
Inductive Blocks (host : Host) (queue : list Entry.t)
    : list ItemType -> list Event -> Prop :=
| blocks_end : Blocks host queue [] []
| blocks_type t ts block tr :
    TypeBlock host t 0 queue block ->
    Blocks host queue ts tr ->
    Blocks host queue (t :: ts) (EvPrepare t queue Returned :: block ++ tr).

(** The warnings pushed in a log, in order. *)
Fixpoint pushed (tr : list Event) : list string :=
  match tr with
  | [] => []
  | EvWarning w :: rest => w :: pushed rest
  | _ :: rest => pushed rest
  end.

(** The message of the error that a per-entry converter call has thrown. *)
Definition thrownBy (ev : Event) : option string :=
  match ev with
  | EvUpdateContext _ (Threw message)
  | EvProcessResource _ _ (Threw message)
  | EvProcessItem _ _ (Threw message) => Some message
  | _ => None
  end.

(** The steps of dispatch in a log: a call of
    [prepareForProcessingItemType] with its arguments, or the selection of
    a queue position. *)
Inductive Step :=
| Prepare (t : ItemType) (queue : list Entry.t)
| Visit (i : nat).

Fixpoint steps (tr : list Event) : list Step :=
  match tr with
  | [] => []
  | EvPrepare t q _ :: rest => Prepare t q :: steps rest
  | EvEntry i :: rest => Visit i :: steps rest
  | _ :: rest => steps rest
  end.


(** The calls of [close] in a log. *)
Fixpoint closeCalls (tr : list Event) : nat :=
  match tr with
  | [] => 0
  | EvClose _ :: rest => S (closeCalls rest)
  | _ :: rest => closeCalls rest
  end.

(** A log continues with the next entry, the next type or [close]: the
    entry before makes no further call. *)
Definition atBoundary (tr : list Event) : Prop :=
  match tr with
  | EvEntry _ :: _ | EvPrepare _ _ _ :: _ | EvClose _ :: _ => True
  | _ => False
  end.

(** Every per-entry converter call that threw is directly followed in the
    log by the warning that carries its message. *)
Fixpoint Answered (tr : list Event) : Prop :=
  match tr with
  | [] => True
  | ev :: rest =>
    match thrownBy ev with
    | Some message => (exists rest', rest = EvWarning message :: rest') /\ Answered rest
    | None => Answered rest
    end
  end.

(* ================================================================== *)
(** ** A registry and a store to run the definitions on *)

Definition sampleModule (type : ModuleType) (format : string)
    (exts : list string) (target : option FileSystemItem)
    (outputFormat : ImportModuleOutputFormat) (isDefault : bool)
    (importerClass : option string) : Mod.t :=
  {| Mod.type := type; Mod.format := format;
     Mod.fileExtensions := Some exts;
     Mod.sources := match type with Importer => Some [File] | Exporter => None end;
     Mod.target := target;
     Mod.outputFormat := Some outputFormat;
     Mod.isDefault := isDefault;
     Mod.importerClass := importerClass;
     Mod.instanceFactory := None;
     Mod.description := format |}.

Definition enexToHtml : Mod.t :=
  sampleModule Importer "enex" ["enex"] None Html false
               (Some "InteropService_Importer_EnexToHtml").

Definition enexToMd : Mod.t :=
  sampleModule Importer "enex" ["enex"] None Markdown true
               (Some "InteropService_Importer_EnexToMd").

Definition mdImporter : Mod.t :=
  sampleModule Importer "md" ["md"; "markdown"; "txt"] None Markdown false None.

Definition jexExporter : Mod.t :=
  sampleModule Exporter "jex" ["jex"] (Some File) Markdown false None.

Definition htmlFileExporter : Mod.t :=
  sampleModule Exporter "html" ["html"; "htm"] (Some File) Markdown false None.

Definition htmlDirectoryExporter : Mod.t :=
  sampleModule Exporter "html" [] (Some Directory) Markdown true None.

(** The HTML-output ENEX importer comes first, the default one second. *)
Definition sampleService : InteropService :=
  {| defaultModules_ := [enexToHtml; enexToMd; mdImporter; jexExporter;
                         htmlFileExporter; htmlDirectoryExporter];
     userModules_ := [] |}.

(** A registered importer whose extension is written in upper case. *)
Definition upperCaseService : InteropService :=
  {| defaultModules_ := [];
     userModules_ := [sampleModule Importer "enex" ["ENEX"] None Markdown true None] |}.

Definition sampleItem (id : Id) (title : string) (body : string)
    (encrypted : bool) : Item.t :=
  {| Item.id := id; Item.title := Some title; Item.body := body;
     Item.encryption_applied := encrypted;
     Item.encryption_blob_encrypted := false |}.

(** One folder [f1] with the notes [n1], [n2] and [n3].  [n1] and [n2] link
    the resource [r1], [n1] also links [r2], which is not in the store;
    [n3] is still encrypted.  [n1] and [n2] carry the same tag [t1]. *)
Definition sampleLoad (t : ItemType) (id : Id) : option Item.t :=
  match t with
  | TYPE_FOLDER => if String.eqb id "f1" then Some (sampleItem "f1" "Folder" EmptyString false) else None
  | TYPE_NOTE =>
    if String.eqb id "n1" then Some (sampleItem "n1" "First" "r1 r2" false)
    else if String.eqb id "n2" then Some (sampleItem "n2" "Second" "r1" false)
    else if String.eqb id "n3" then Some (sampleItem "n3" "Third" EmptyString true)
    else None
  | TYPE_RESOURCE => if String.eqb id "r1" then Some (sampleItem "r1" "Picture" EmptyString false) else None
  | TYPE_TAG => if String.eqb id "t1" then Some (sampleItem "t1" "Tag" EmptyString false) else None
  | TYPE_NOTE_TAG =>
    if String.eqb id "nt1" then Some (sampleItem "nt1" EmptyString EmptyString false)
    else if String.eqb id "nt2" then Some (sampleItem "nt2" EmptyString EmptyString false)
    else None
  end.

Definition sampleHost : Host :=
  {| fsDriver_exists := fun p => String.eqb p "/in/notes.ENEX" || String.eqb p "/in/notes.zzz";
     fileExtension := fun p => if String.eqb p "/in/notes.ENEX" then "ENEX"
                               else if String.eqb p "/in/notes.zzz" then "zzz"
                               else EmptyString;
     toTitleCase := fun s => s;
     JSON_stringify := fun id => concat_strings [dquote; id; dquote];
     load := sampleLoad;
     tableName := fun t => match t with
                           | TYPE_FOLDER => "folders" | TYPE_RESOURCE => "resources"
                           | TYPE_NOTE => "notes" | TYPE_TAG => "tags"
                           | TYPE_NOTE_TAG => "note_tags"
                           end;
     modelTypeToName := fun t => match t with
                                 | TYPE_FOLDER => "folder" | TYPE_RESOURCE => "resource"
                                 | TYPE_NOTE => "note" | TYPE_TAG => "tag"
                                 | TYPE_NOTE_TAG => "note_tag"
                                 end;
     Folder_childrenIds := fun parent _ => if String.eqb parent EmptyString then ["f1"] else [];
     Folder_noteIds := fun f => if String.eqb f "f1" then ["n1"; "n2"; "n3"] else [];
     Note_linkedResourceIds := fun body =>
       if String.eqb body "r1 r2" then ["r1"; "r2"]
       else if String.eqb body "r1" then ["r1"] else [];
     NoteTag_all := [ {| NoteTag.id := "nt1"; NoteTag.note_id := "n1"; NoteTag.tag_id := "t1" |};
                      {| NoteTag.id := "nt2"; NoteTag.note_id := "n2"; NoteTag.tag_id := "t1" |} ];
     Resource_fullPath := fun item => String.append "/resources/" (Item.id item) |}.

Definition sampleOptions (path : string) (format : option string) : Options.t :=
  {| Options.path := path; Options.format := format;
     Options.destinationFolderId := None; Options.destinationFolder := None;
     Options.modulePath := None; Options.outputFormat := None;
     Options.target := None;
     Options.sourceFolderIds := None; Options.sourceNoteIds := None |}.

Definition overrideOptions (format : string) : Options.t :=
  {| Options.path := "/out/export"; Options.format := Some format;
     Options.destinationFolderId := None; Options.destinationFolder := None;
     Options.modulePath := Some "plugins/MyExporter"; Options.outputFormat := None;
     Options.target := Some Directory;
     Options.sourceFolderIds := None; Options.sourceNoteIds := None |}.

(** A converter whose state counts the calls it has received.  The exporter
    throws on the note [n2]; all its other methods return. *)
Definition countingExporter : Exp.t nat :=
  {| Exp.init := fun _ _ n => (S n, Returned);
     Exp.prepareForProcessingItemType := fun _ _ n => (S n, Returned);
     Exp.updateContext := fun _ n => (S n, Returned);
     Exp.processResource := fun _ _ n => (S n, Returned);
     Exp.processItem := fun _ item n =>
       (S n, if String.eqb (Item.id item) "n2" then Threw "cannot write n2" else Returned);
     Exp.close := fun n => (S n, Returned) |}.

Definition countingImporter : Imp.t nat :=
  {| Imp.init := fun _ _ n => (S n, Returned);
     Imp.exec := fun r n => (S n, Ok {| warnings := warnings r ++ ["one note skipped"] |}) |}.

(* ================================================================== *)
(** ** The phases of [import], for the statements about it *)

(** The format [import] settles on: the given one, or the format of the
    module found by the path's extension when the format is "auto" or
    absent; [None] when that lookup finds nothing. *)
Definition importFormat (host : Host) (this : InteropService)
    (options : Options.t) : option string :=
  let format0 :=
    match Options.format options with Some f => f | None => "auto" end in
  if String.eqb format0 "auto" then
    match moduleByFileExtension_ this Importer
            (fileExtension host (Options.path options)) with
    | Some module => Some (Mod.format module)
    | None => None
    end
  else Some format0.

(** The destination folder id that is given and does not load. *)
Definition missingDestination (host : Host) (options : Options.t) : option Id :=
  match truthyString (Options.destinationFolderId options) with
  | Some folderId =>
    match load host TYPE_FOLDER folderId with
    | None => Some folderId
    | Some _ => None
    end
  | None => None
  end.

(** The options as [import] hands them to the converter. *)
Definition importOptions (host : Host) (options : Options.t) (format : string)
    : Options.t :=
  {| Options.path := Options.path options;
     Options.format := Some format;
     Options.destinationFolderId := Options.destinationFolderId options;
     Options.destinationFolder :=
       match truthyString (Options.destinationFolderId options) with
       | Some folderId => load host TYPE_FOLDER folderId
       | None => Options.destinationFolder options
       end;
     Options.modulePath := Options.modulePath options;
     Options.outputFormat := Options.outputFormat options;
     Options.target := Options.target options;
     Options.sourceFolderIds := Options.sourceFolderIds options;
     Options.sourceNoteIds := Options.sourceNoteIds options |}.

(** The resolution of the importer: by path when [modulePath] is given, by
    format otherwise. *)
Definition importModule (host : Host) (this : InteropService)
    (options : Options.t) (format : string) : Res ModuleInstance :=
  match truthyString (Options.modulePath options) with
  | Some _ => newModuleFromPath_ host this Importer
                                 (Some (importOptions host options format))
  | None => newModuleByFormat_ host this Importer format
                               (Options.outputFormat options)
  end.

(** [init] then [exec] on the importer, from the converter state [st0]. *)
Definition importCalls {St : Type} (importer : Imp.t St) (st0 : St)
    (options : Options.t) : Res ImportExportResult * St * list Event :=
  let path := Options.path options in
  match Imp.init importer path options st0 with
  | (st1, Threw message) =>
    (Err (Thrown message), st1, [EvInit (Some path) options (Threw message)])
  | (st1, Returned) =>
    match Imp.exec importer {| warnings := [] |} st1 with
    | (st2, Ok r) =>
      (Ok r, st2, [EvInit (Some path) options Returned;
                   EvExec {| warnings := [] |} (Ok r)])
    | (st2, Err message) =>
      (Err (Thrown message), st2,
       [EvInit (Some path) options Returned;
        EvExec {| warnings := [] |} (Err message)])
    end
  end.

(** A run has ended with an error and no converter call has been made. *)
Definition failedBeforeConverter {St A : Type}
    (r : Res A * RunState St) : Prop :=
  (exists e, fst r = Err e) /\ trace (snd r) = [].


(** The ways [import] can fail before it has a converter. *)
Definition sourceNotFound (host : Host) (options : Options.t) : Prop :=
  fsDriver_exists host (Options.path options) = false.

Definition formatUnspecified (host : Host) (this : InteropService)
    (options : Options.t) : Prop :=
  (Options.format options = None \/ Options.format options = Some "auto")
  /\ moduleByFileExtension_ this Importer
       (fileExtension host (Options.path options)) = None.

Definition destinationNotFound (host : Host) (options : Options.t) : Prop :=
  exists folderId,
    truthyString (Options.destinationFolderId options) = Some folderId
    /\ load host TYPE_FOLDER folderId = None.

Definition moduleNotFound (host : Host) (this : InteropService)
    (options : Options.t) : Prop :=
  exists format e,
    importFormat host this options = Some format
    /\ importModule host this options format = Err e.


(** Export of everything in the sample store: no folder filter, no note
    filter. *)
Definition exportAllOptions : Options.t := sampleOptions "/out/export" None.


(* ================================================================== *)
(** ** Built-in descriptors and registration *)

(** The fields an object literal gives for a descriptor, apart from its
    type: a field that is not written is [None]. *)
Module Fields.
Record t := mk {
  format : option string;
  fileExtensions : option (list string);
  sources : option (list FileSystemItem);
  target : option FileSystemItem;
  outputFormat : option ImportModuleOutputFormat;
  isDefault : option bool;
  importerClass : option string;
  instanceFactory : option Factory;
  description : option string
}.
End Fields.

(** A field of [{ ...d, ...fields }]: the written one wins. *)
Definition written {A : Type} (field : option A) (inherited : A) : A :=
  match field with
  | Some v => v
  | None => inherited
  end.

Definition writtenOption {A : Type} (field inherited : option A) : option A :=
  match field with
  | Some v => Some v
  | None => inherited
  end.

(** [{ ...d, type, ...fields }] *)
Definition spread (d : Mod.t) (type : ModuleType) (fields : Fields.t) : Mod.t :=
  {| Mod.type := type;
     Mod.format := written (Fields.format fields) (Mod.format d);
     Mod.fileExtensions :=
       writtenOption (Fields.fileExtensions fields) (Mod.fileExtensions d);
     Mod.sources := writtenOption (Fields.sources fields) (Mod.sources d);
     Mod.target := writtenOption (Fields.target fields) (Mod.target d);
     Mod.outputFormat :=
       writtenOption (Fields.outputFormat fields) (Mod.outputFormat d);
     Mod.isDefault := written (Fields.isDefault fields) (Mod.isDefault d);
     Mod.importerClass :=
       writtenOption (Fields.importerClass fields) (Mod.importerClass d);
     Mod.instanceFactory :=
       writtenOption (Fields.instanceFactory fields) (Mod.instanceFactory d);
     Mod.description := written (Fields.description fields) (Mod.description d) |}.

(** The fields of a built-in descriptor, in the order they are read
    below. *)
Definition builtinFields (format : string)
    (fileExtensions : option (list string))
    (sources : option (list FileSystemItem)) (target : option FileSystemItem)
    (outputFormat : option ImportModuleOutputFormat) (isDefault : option bool)
    (importerClass : option string) (description : string) : Fields.t :=
  {| Fields.format := Some format;
     Fields.fileExtensions := fileExtensions;
     Fields.sources := sources;
     Fields.target := target;
     Fields.outputFormat := outputFormat;
     Fields.isDefault := isDefault;
     Fields.importerClass := importerClass;
     Fields.instanceFactory := None;
     Fields.description := Some description |}.

(** [{ ...defaultImportExportModule(type), ...fields }]: the type is the one
    of the defaults.  [defaultImportExportModule] is declared in [./types]
    and [_] in [lib/locale]; both are taken as they come. *)
Definition builtin (defaultImportExportModule : ModuleType -> Mod.t)
    (type : ModuleType) (fields : Fields.t) : Mod.t :=
  spread (defaultImportExportModule type)
         (Mod.type (defaultImportExportModule type)) fields.

Definition importModules (defaultImportExportModule : ModuleType -> Mod.t)
    (translate : string -> string) : list Mod.t :=
  [ builtin defaultImportExportModule Importer
      (builtinFields "jex" (Some ["jex"]) (Some [File]) None None None None
                     (translate "Joplin Export File"));
    builtin defaultImportExportModule Importer
      (builtinFields "md" (Some ["md"; "markdown"; "txt"])
                     (Some [File; Directory]) None None None None
                     (translate "Markdown"));
    builtin defaultImportExportModule Importer
      (builtinFields "raw" None (Some [Directory]) None None None None
                     (translate "Joplin Export Directory"));
    builtin defaultImportExportModule Importer
      (builtinFields "enex" (Some ["enex"]) (Some [File]) None None (Some true)
                     (Some "InteropService_Importer_EnexToMd")
                     (translate "Evernote Export File (as Markdown)"));
    builtin defaultImportExportModule Importer
      (builtinFields "enex" (Some ["enex"]) (Some [File]) None (Some Html) None
                     (Some "InteropService_Importer_EnexToHtml")
                     (translate "Evernote Export File (as HTML)")) ].

Definition exportModules (defaultImportExportModule : ModuleType -> Mod.t)
    (translate : string -> string) : list Mod.t :=
  [ builtin defaultImportExportModule Exporter
      (builtinFields "jex" (Some ["jex"]) None (Some File) None None None
                     (translate "Joplin Export File"));
    builtin defaultImportExportModule Exporter
      (builtinFields "raw" None None (Some Directory) None None None
                     (translate "Joplin Export Directory"));
    builtin defaultImportExportModule Exporter
      (builtinFields "md" None None (Some Directory) None None None
                     (translate "Markdown"));
    builtin defaultImportExportModule Exporter
      (builtinFields "html" (Some ["html"; "htm"]) None (Some File) None None None
                     (translate "HTML File"));
    builtin defaultImportExportModule Exporter
      (builtinFields "html" None None (Some Directory) None None None
                     (translate "HTML Directory")) ].

(** The service once [modules()] has built [defaultModules_], with nothing
    registered. *)
Definition newService (defaultImportExportModule : ModuleType -> Mod.t)
    (translate : string -> string) : InteropService :=
  {| defaultModules_ :=
       importModules defaultImportExportModule translate
       ++ exportModules defaultImportExportModule translate;
     userModules_ := [] |}.

(** The argument of [registerModule]: a type and the fields written. *)
Record Registration := {
  reg_type : ModuleType;
  reg_fields : Fields.t
}.

(** The descriptor that [registerModule] stores. *)
Definition registered (defaultImportExportModule : ModuleType -> Mod.t)
    (module : Registration) : Mod.t :=
  spread (defaultImportExportModule (reg_type module)) (reg_type module)
         (reg_fields module).

(** [registerModule]: the service after the call, and the events emitted. *)
Definition registerModule (defaultImportExportModule : ModuleType -> Mod.t)
    (this : InteropService) (module : Registration)
    : InteropService * list string :=
  let module := registered defaultImportExportModule module in
  ({| defaultModules_ := defaultModules_ this;
      userModules_ := userModules_ this ++ [module] |},
   ["modulesChanged"]).

(** A sequence of registrations. *)
Definition registerAll (defaultImportExportModule : ModuleType -> Mod.t)
    (this : InteropService) (modules : list Registration) : InteropService :=
  fold_left (fun this module =>
               fst (registerModule defaultImportExportModule this module))
            modules this.

(** Defaults to run the definitions on. *)
Definition sampleDefaults (type : ModuleType) : Mod.t :=
  {| Mod.type := type; Mod.format := EmptyString;
     Mod.fileExtensions := Some [];
     Mod.sources := Some [];
     Mod.target := Some File;
     Mod.outputFormat := Some Markdown;
     Mod.isDefault := false;
     Mod.importerClass := None;
     Mod.instanceFactory := None;
     Mod.description := EmptyString |}.

(** A registration of an importer for the format "org", built by a custom
    factory. *)
Definition orgRegistration : Registration :=
  {| reg_type := Importer;
     reg_fields :=
       {| Fields.format := Some "org";
          Fields.fileExtensions := Some ["org"; "md"];
          Fields.sources := None; Fields.target := None;
          Fields.outputFormat := None; Fields.isDefault := None;
          Fields.importerClass := None;
          Fields.instanceFactory := Some "orgFactory";
          Fields.description := Some "Org mode" |} |}.


(** A module is kept by a lookup [findModuleByFormat_(type, format, target,
    outputFormat)]. *)
Definition isCandidate (type : ModuleType) (format : string)
    (target : option FileSystemItem)
    (outputFormat : option ImportModuleOutputFormat) (m : Mod.t) : bool :=
  sameTypeAndFormat type format m &&
  match target, outputFormat with
  | None, None => true
  | Some t, None => targetIs t m
  | None, Some o => outputFormatIs o m
  | Some t, Some o => targetIs t m || outputFormatIs o m
  end.


(* ================================================================== *)
(** ** What an export run selects, for the statements about collection *)

Definition givenIds (ids : option (list Id)) : list Id :=
  match ids with
  | Some l => l
  | None => []
  end.

(** The folder filter once the loop of lines 323 to 329 has extended it:
    the given ids, then what [Folder.childrenIds] lists for each of them. *)
Definition fullSourceFolderIds (host : Host) (options : Options.t) : list Id :=
  givenIds (Options.sourceFolderIds options)
  ++ flat_map (fun id => Folder_childrenIds host id None)
              (givenIds (Options.sourceFolderIds options)).

(** The folders of the store's listing that pass the folder filter. *)
Definition selectedFolderIds (host : Host) (options : Options.t) : list Id :=
  filter (fun f => negb (filteredOut (fullSourceFolderIds host options) f))
         (Folder_childrenIds host EmptyString (Some true)).

(** The notes under those folders that pass the note filter. *)
Definition selectedNoteIds (host : Host) (options : Options.t) : list Id :=
  flat_map (fun f =>
              filter (fun n =>
                        negb (filteredOut (givenIds (Options.sourceNoteIds options)) n))
                     (Folder_noteIds host f))
           (selectedFolderIds host options).

(** Options with a folder filter, and options with a note filter. *)
Definition folderFilterOptions (ids : list Id) : Options.t :=
  {| Options.path := "/out/export"; Options.format := None;
     Options.destinationFolderId := None; Options.destinationFolder := None;
     Options.modulePath := None; Options.outputFormat := None;
     Options.target := None;
     Options.sourceFolderIds := Some ids; Options.sourceNoteIds := None |}.

Definition noteFilterOptions (ids : list Id) : Options.t :=
  {| Options.path := "/out/export"; Options.format := None;
     Options.destinationFolderId := None; Options.destinationFolder := None;
     Options.modulePath := None; Options.outputFormat := None;
     Options.target := None;
     Options.sourceFolderIds := None; Options.sourceNoteIds := Some ids |}.

(** The sample store with a second folder [f2], child of [f1], that holds
    the note [n4], and a note [n9] under [f1] that does not load. *)
Definition nestedHost (withBrokenNote : bool) : Host :=
  {| fsDriver_exists := fsDriver_exists sampleHost;
     fileExtension := fileExtension sampleHost;
     toTitleCase := toTitleCase sampleHost;
     JSON_stringify := JSON_stringify sampleHost;
     load := fun t id =>
       if ItemType_eqb t TYPE_NOTE && String.eqb id "n4"
       then Some (sampleItem "n4" "Fourth" "r1" false)
       else load sampleHost t id;
     tableName := tableName sampleHost;
     modelTypeToName := modelTypeToName sampleHost;
     Folder_childrenIds := fun parent _ =>
       if String.eqb parent EmptyString then ["f1"; "f2"; "f3"]
       else if String.eqb parent "f1" then ["f2"] else [];
     Folder_noteIds := fun f =>
       if String.eqb f "f1" then
         (if withBrokenNote then ["n1"; "n9"] else ["n1"; "n2"; "n3"])
       else if String.eqb f "f2" then ["n4"] else [];
     Note_linkedResourceIds := Note_linkedResourceIds sampleHost;
     NoteTag_all := NoteTag_all sampleHost;
     Resource_fullPath := Resource_fullPath sampleHost |}.


(* ================================================================== *)
(** ** The converter phase of [export], for the statements about errors *)

(** Lines 373 to 426 of [export]: [init], the two loops, [close], and the
    result. *)
Definition exportCalls (host : Host) {St : Type} (exporter : Exp.t St)
    (options : Options.t) (itemsToExport : list Entry.t)
    : M St Error ImportExportResult :=
  (uncaught (call (Exp.init exporter (truthyString (Some (Options.path options)))
                            (exportDefaults options))
                  (EvInit (truthyString (Some (Options.path options)))
                          (exportDefaults options))) ;;
   forEachType host exporter typeOrder itemsToExport ;;
   uncaught (call (Exp.close exporter) EvClose) ;;
   (fun s => (Ok (result s), s)))%run.

(** The message of the error thrown by a call that is outside the [try]
    block: [init], [prepareForProcessingItemType] or [close]. *)
Definition lifecycleThrow (ev : Event) : option string :=
  match ev with
  | EvInit _ _ (Threw message)
  | EvPrepare _ _ (Threw message)
  | EvClose (Threw message) => Some message
  | _ => None
  end.

(** An exporter whose [prepareForProcessingItemType] throws when it reaches
    the notes. *)
Definition failingExporter : Exp.t nat :=
  {| Exp.init := Exp.init countingExporter;
     Exp.prepareForProcessingItemType := fun t _ n =>
       (S n, if ItemType_eqb t TYPE_NOTE then Threw "disk full" else Returned);
     Exp.updateContext := Exp.updateContext countingExporter;
     Exp.processResource := Exp.processResource countingExporter;
     Exp.processItem := Exp.processItem countingExporter;
     Exp.close := Exp.close countingExporter |}.


(** [o[id]] on the object that [setProperty] writes. *)
Fixpoint getProperty (id : Id) (o : list (Id * string)) : option string :=
  match o with
  | [] => None
  | (k, v) :: rest => if String.eqb k id then Some v else getProperty id rest
  end.

(** In a log, every call of [processResource] comes right after a call of
    [updateContext] that returned, and the context of that call maps the
    id of the resource to the path that [processResource] receives, which is
    the full path of the resource.  [previous] is the context of the call of
    [updateContext] that has just returned, if the last event is one. *)
Fixpoint Announced (host : Host) (previous : option Context) (tr : list Event)
    : Prop :=
  match tr with
  | [] => True
  | EvProcessResource item path _ :: rest =>
    match previous with
    | Some c => getProperty (Item.id item) (resourcePaths c) = Some path
                /\ path = Resource_fullPath host item
    | None => False
    end
    /\ Announced host None rest
  | EvUpdateContext c Returned :: rest => Announced host (Some c) rest
  | _ :: rest => Announced host None rest
  end.


(** The calls of [processItem] that returned, in a log. *)
Fixpoint processedItems (tr : list Event) : nat :=
  match tr with
  | [] => 0
  | EvProcessItem _ _ Returned :: rest => S (processedItems rest)
  | _ :: rest => processedItems rest
  end.


(* ================================================================== *)
(** * Properties *)

(** ** Decidable equalities and membership *)

Lemma ModuleType_eqb_spec a b : reflect (a = b) (ModuleType_eqb a b).
Proof. destruct a, b; constructor; congruence. Qed.

Lemma FileSystemItem_eqb_spec a b : reflect (a = b) (FileSystemItem_eqb a b).
Proof. destruct a, b; constructor; congruence. Qed.

Lemma OutputFormat_eqb_spec a b : reflect (a = b) (OutputFormat_eqb a b).
Proof. destruct a, b; constructor; congruence. Qed.

Lemma ItemType_eqb_spec a b : reflect (a = b) (ItemType_eqb a b).
Proof. destruct a, b; constructor; congruence. Qed.

Lemma ItemType_eqb_refl t : ItemType_eqb t t = true.
Proof. now destruct t. Qed.

Lemma includes_In x l : includes x l = true <-> In x l.
Proof.
  unfold includes. rewrite existsb_exists. split.
  - intros [y [Hy He]]. apply String.eqb_eq in He. now subst.
  - intros H. exists x. split; [assumption | apply String.eqb_refl].
Qed.

(* ================================================================== *)
(** ** Module registry *)

(** The loop of [findModuleByFormat_] pushes onto [matches] exactly the
    modules a filter would keep, in list order. *)
Lemma findModuleByFormat_loop type format target outputFormat ms :
  forall matches,
    fold_left (findModuleByFormat_step type format target outputFormat) ms matches
    = matches ++
      filter (fun m =>
                sameTypeAndFormat type format m &&
                match target, outputFormat with
                | None, None => true
                | Some t, None => targetIs t m
                | None, Some o => outputFormatIs o m
                | Some t, Some o => targetIs t m || outputFormatIs o m
                end) ms.
Proof.
  induction ms as [|m ms IH]; intros matches; simpl.
  - now rewrite app_nil_r.
  - rewrite IH. unfold findModuleByFormat_step, sameTypeAndFormat, targetIs,
      outputFormatIs.
    destruct (String.eqb (Mod.format m) format && ModuleType_eqb (Mod.type m) type);
      simpl; [|reflexivity].
    destruct target as [t|], outputFormat as [o|];
      destruct (Mod.target m) as [mt|], (Mod.outputFormat m) as [mo|]; simpl;
      repeat match goal with
             | |- context [FileSystemItem_eqb ?a ?b] => destruct (FileSystemItem_eqb a b); simpl
             | |- context [OutputFormat_eqb ?a ?b] => destruct (OutputFormat_eqb a b); simpl
             end;
      rewrite <- ?app_assoc; reflexivity.
Qed.





(** The loop of [moduleByFileExtension_] is a [find]. *)
Lemma moduleByFileExtension_loop_find type ext ms :
  moduleByFileExtension_loop type ext ms
  = find (fun m => ModuleType_eqb type (Mod.type m) && listsExtension ext m) ms.
Proof.
  induction ms as [|m ms IH]; simpl; [reflexivity|].
  unfold listsExtension at 1.
  destruct (ModuleType_eqb type (Mod.type m)); simpl; [|exact IH].
  destruct (Mod.fileExtensions m) as [exts|]; [|exact IH].
  destruct (includes ext exts); [reflexivity | exact IH].
Qed.

(** C9, as the code has it.  [moduleByFileExtension_] lower-cases the
    requested extension and returns the first module of the given type, in
    list order, whose [fileExtensions] holds that lower-cased string as it
    is written; so two requests that differ only in case, such as "ENEX" and
    "enex", have the same answer, and nothing is returned exactly when no
    module of the type lists the lower-cased extension. *)
Theorem moduleByFileExtension_lowercases_request :
  forall (this : InteropService) (type : ModuleType) (ext : string),
    moduleByFileExtension_ this type ext
    = find (fun m => ModuleType_eqb type (Mod.type m)
                     && listsExtension (toLowerCase ext) m) (modules this)
    /\ moduleByFileExtension_ this type "ENEX" = moduleByFileExtension_ this type "enex"
    /\ (forall ext', toLowerCase ext' = toLowerCase ext ->
                     moduleByFileExtension_ this type ext'
                     = moduleByFileExtension_ this type ext)
    /\ (moduleByFileExtension_ this type ext = None <->
        forall m, In m (modules this) -> Mod.type m = type ->
                  listsExtension (toLowerCase ext) m = false).
Proof.
  intros this type ext. unfold moduleByFileExtension_.
  rewrite !moduleByFileExtension_loop_find.
  split; [reflexivity|]. split; [reflexivity|]. split.
  - intros ext' Heq. rewrite moduleByFileExtension_loop_find. now rewrite Heq.
  - split.
    + intros Hnone m Hin Hty.
      pose proof (find_none _ _ Hnone m Hin) as H. simpl in H.
      subst type. destruct (ModuleType_eqb_spec (Mod.type m) (Mod.type m)) as [_|Hn];
        [exact H | now elim Hn].
    + intros Hall. induction (modules this) as [|m ms IH]; simpl; [reflexivity|].
      destruct (ModuleType_eqb_spec type (Mod.type m)) as [Heq|Hne]; simpl.
      * rewrite (Hall m (or_introl eq_refl) (eq_sym Heq)).
        apply IH. intros m' Hin. apply Hall. now right.
      * apply IH. intros m' Hin. apply Hall. now right.
Qed.

(** C9, against the claim as stated: a registered importer whose extension
    list holds "ENEX" is not found by the request "ENEX", although its
    extension set contains the requested extension. *)
Lemma moduleByFileExtension_upper_case_counterexample :
  moduleByFileExtension_ upperCaseService Importer "ENEX" = None
  /\ exists m, In m (modules upperCaseService)
               /\ Mod.type m = Importer
               /\ listsExtension "ENEX" m = true.
Proof.
  split; [reflexivity|].
  eexists. split; [left; reflexivity|]. split; reflexivity.
Qed.

(** C9 on the sample registry: the requests "ENEX" and "enex" both find the
    first ENEX importer listed. *)
Lemma moduleByFileExtension_lowercases_request_witness :
  moduleByFileExtension_ sampleService Importer "ENEX" = Some enexToHtml
  /\ moduleByFileExtension_ sampleService Importer "ENEX"
     = moduleByFileExtension_ sampleService Importer "enex".
Proof.
  pose proof (moduleByFileExtension_lowercases_request sampleService Importer "ENEX")
    as [H1 [H2 _]].
  split; [rewrite H1; reflexivity | exact H2].
Defined.

(* ================================================================== *)
(** ** Module resolver *)

(** Without an override the class is the one [modulePath] computes. *)
Lemma newModuleFromPath_computed_name host this type options m :
  truthyString (Options.modulePath options) = None ->
  findModuleByOptions this type options = Some m ->
  newModuleFromPath_ host this type (Some options)
  = Ok {| construction :=
            match Mod.instanceFactory m with
            | Some factory => newModuleFromCustomFactory m factory
            | None => FromClass (modulePath host m)
            end;
          metadata := {| md_options := Some options; md_module := m |} |}.
Proof.
  intros Hpath Hfind. unfold newModuleFromPath_. rewrite Hpath, Hfind.
  reflexivity.
Qed.

Lemma truthyString_nonEmpty s p : truthyString s = Some p -> nonEmpty p = true.
Proof.
  destruct s as [v|]; simpl; [|discriminate].
  destruct (nonEmpty v) eqn:E; [|discriminate]. now intros [= <-].
Qed.

(** C5.  With an explicit [modulePath] in the options, [newModuleFromPath_]
    looks the descriptor up by type, format and [target], with no output
    format; the class that is constructed is the one at the override path,
    whatever name [modulePath] would compute for the descriptor (whatever
    the host's [toTitleCase] and the descriptor's [importerClass]); the
    metadata handed to [setMetadata] is the matched descriptor together with
    the options. *)
Theorem newModuleFromPath_override :
  forall (host : Host) (this : InteropService) (type : ModuleType)
         (options : Options.t) (path format : string) (m : Mod.t),
    truthyString (Options.modulePath options) = Some path ->
    Options.format options = Some format ->
    findModuleByFormat_ this type format (Options.target options) None = Some m ->
    newModuleFromPath_ host this type (Some options)
    = Ok {| construction :=
              match Mod.instanceFactory m with
              | Some factory => newModuleFromCustomFactory m factory
              | None => FromClass path
              end;
            metadata := {| md_options := Some options; md_module := m |} |}.
Proof.
  intros host this type options path format m Hpath Hformat Hfind.
  unfold newModuleFromPath_, findModuleByOptions.
  rewrite Hpath, Hformat, Hfind, (truthyString_nonEmpty _ Hpath). reflexivity.
Qed.

(** C5 on the sample registry: the HTML exporter for directories is matched
    by its target and built from the override path, not from
    [lib/services/interop/InteropService_Exporter_html]. *)
Lemma newModuleFromPath_override_witness :
  newModuleFromPath_ sampleHost sampleService Exporter (Some (overrideOptions "html"))
  = Ok {| construction := FromClass "plugins/MyExporter";
          metadata := {| md_options := Some (overrideOptions "html");
                         md_module := htmlDirectoryExporter |} |}.
Proof.
  apply (@newModuleFromPath_override sampleHost sampleService Exporter
           (overrideOptions "html") "plugins/MyExporter" "html"
           htmlDirectoryExporter); reflexivity.
Defined.

(** C10.  With a non-empty [modulePath] in the options the descriptor is
    still looked up, and its [instanceFactory] is read without a test: when
    no descriptor matches, the call ends with the type error of a property
    read on [null], not with the "Cannot load module" error, which is the
    one raised when there is no override. *)
Theorem newModuleFromPath_override_needs_descriptor :
  forall (host : Host) (this : InteropService) (type : ModuleType)
         (options : Options.t) (path : string),
    truthyString (Options.modulePath options) = Some path ->
    findModuleByOptions this type options = None ->
    newModuleFromPath_ host this type (Some options)
    = Err (TypeError "moduleMetadata")
    /\ newModuleFromPath_ host this type (Some options)
       <> Err (CannotLoadModuleForTarget type (Options.format options)
                                         (Options.target options)).
Proof.
  intros host this type options path Hpath Hfind.
  assert (H : newModuleFromPath_ host this type (Some options)
              = Err (TypeError "moduleMetadata")).
  { unfold newModuleFromPath_.
    rewrite Hpath, Hfind, (truthyString_nonEmpty _ Hpath). reflexivity. }
  split; [exact H | rewrite H; discriminate].
Qed.

(** C10 on the sample registry, which has no exporter for the format
    "pdf". *)
Lemma newModuleFromPath_override_needs_descriptor_witness :
  newModuleFromPath_ sampleHost sampleService Exporter (Some (overrideOptions "pdf"))
  = Err (TypeError "moduleMetadata").
Proof.
  apply (@newModuleFromPath_override_needs_descriptor sampleHost sampleService
           Exporter (overrideOptions "pdf") "plugins/MyExporter");
    reflexivity.
Defined.

(** Without an override, the same miss is reported by the descriptive
    error. *)
Lemma newModuleFromPath_no_override_not_found host this type options :
  truthyString (Options.modulePath options) = None ->
  findModuleByOptions this type options = None ->
  newModuleFromPath_ host this type (Some options)
  = Err (CannotLoadModuleForTarget type (Options.format options)
                                   (Options.target options)).
Proof.
  intros Hpath Hfind. unfold newModuleFromPath_. rewrite Hpath, Hfind.
  reflexivity.
Qed.

(* ================================================================== *)
(** ** Import pipeline *)

(** [import] phase by phase. *)
Lemma import_phases host this St (importer : Imp.t St) st0 options :
  import host this importer st0 options
  = if negb (fsDriver_exists host (Options.path options)) then
      (Err (CannotFind (Options.path options)), initialState st0)
    else
      match importFormat host this options with
      | None => (Err (PleaseSpecifyImportFormat (Options.path options)),
                 initialState st0)
      | Some format =>
        match missingDestination host options with
        | Some folderId => (Err (CannotFind folderId), initialState st0)
        | None =>
          match importModule host this options format with
          | Err e => (Err e, initialState st0)
          | Ok _ =>
            let '(r, st, tr) :=
              importCalls importer st0 (importOptions host options format) in
            (r, {| converter := st; context := {| resourcePaths := [] |};
                   result := {| warnings := [] |}; trace := tr |})
          end
        end
      end.
Proof.
  unfold import, importM, importFormat, missingDestination, importModule,
    importOptions, importCalls.
  destruct (negb (fsDriver_exists host (Options.path options))); [reflexivity|].
  unfold bind, ret, lift, throw, uncaught, try_catch, call, logEvent,
    setConverter, initialState; simpl.
  destruct (String.eqb _ "auto");
    [destruct (moduleByFileExtension_ this Importer _) as [module|];
       [|reflexivity]|];
    (destruct (truthyString (Options.destinationFolderId options)) as [folderId|];
     [destruct (load host TYPE_FOLDER folderId) as [folder|]; [|reflexivity]|]);
    (destruct (truthyString (Options.modulePath options));
     match goal with |- context [match ?r with Ok _ => _ | Err _ => _ end] =>
       destruct r; [|reflexivity] end;
     simpl;
     destruct (Imp.init importer _ _ st0) as [st1 [[]|message]]; simpl;
     try reflexivity;
     destruct (Imp.exec importer _ st1) as [st2 [r|message]]; reflexivity).
Qed.

Lemma importFormat_None host this options :
  importFormat host this options = None <-> formatUnspecified host this options.
Proof.
  unfold importFormat, formatUnspecified.
  destruct (Options.format options) as [f|]; simpl.
  - destruct (String.eqb_spec f "auto") as [->|Hne].
    + destruct (moduleByFileExtension_ this Importer _); split.
      * discriminate.
      * intros [_ H]; discriminate.
      * intros _. split; [now right | reflexivity].
      * reflexivity.
    + split; [discriminate|].
      intros [[H|H] _]; [discriminate | congruence].
  - destruct (moduleByFileExtension_ this Importer _); split.
    + discriminate.
    + intros [_ H]; discriminate.
    + intros _. split; [now left | reflexivity].
    + reflexivity.
Qed.

Lemma missingDestination_Some host options folderId :
  missingDestination host options = Some folderId <->
  truthyString (Options.destinationFolderId options) = Some folderId
  /\ load host TYPE_FOLDER folderId = None.
Proof.
  unfold missingDestination.
  destruct (truthyString (Options.destinationFolderId options)) as [i|].
  - destruct (load host TYPE_FOLDER i) eqn:E; split.
    + discriminate.
    + intros [[= ->] H]. congruence.
    + intros [= ->]. now split.
    + intros [[= ->] _]. reflexivity.
  - split; [discriminate | intros [H _]; discriminate].
Qed.

Lemma importCalls_trace St (importer : Imp.t St) st0 options :
  snd (importCalls importer st0 options) <> [].
Proof.
  unfold importCalls.
  destruct (Imp.init importer _ _ st0) as [st1 [[]|message]]; simpl;
    [|discriminate].
  destruct (Imp.exec importer _ st1) as [st2 [r|message]]; discriminate.
Qed.

(** C6, as the code has it.  [import] fails before any converter call
    exactly when the source path does not exist, or the format is "auto"
    (the default) and no importer lists the path's extension, or a
    destination folder id is given and does not load, or no converter can be
    resolved for the format; the first three are reported in that order.
    Otherwise [init] and then [exec] are called on the importer, once each,
    and what [exec] returns is the result. *)
Theorem import_fails_before_converter :
  forall (host : Host) (this : InteropService) (St : Type)
         (importer : Imp.t St) (st0 : St) (options : Options.t),
    let r := import host this importer st0 options in
    (failedBeforeConverter r <->
     sourceNotFound host options \/ formatUnspecified host this options
     \/ destinationNotFound host options \/ moduleNotFound host this options)
    /\ (sourceNotFound host options ->
        r = (Err (CannotFind (Options.path options)), initialState st0))
    /\ (~ sourceNotFound host options -> formatUnspecified host this options ->
        r = (Err (PleaseSpecifyImportFormat (Options.path options)),
             initialState st0))
    /\ (~ sourceNotFound host options -> ~ formatUnspecified host this options ->
        forall folderId,
          truthyString (Options.destinationFolderId options) = Some folderId ->
          load host TYPE_FOLDER folderId = None ->
          r = (Err (CannotFind folderId), initialState st0))
    /\ (~ (sourceNotFound host options \/ formatUnspecified host this options
           \/ destinationNotFound host options \/ moduleNotFound host this options) ->
        exists format,
          importFormat host this options = Some format
          /\ (fst r, converter (snd r), trace (snd r))
             = importCalls importer st0 (importOptions host options format)).
Proof.
  intros host this St importer st0 options r.
  unfold r. rewrite import_phases.
  unfold sourceNotFound, destinationNotFound, moduleNotFound, failedBeforeConverter.
  pose proof (importFormat_None host this options) as HF.
  destruct (fsDriver_exists host (Options.path options)) eqn:Hex; simpl.
  2:{ split; [split; [intros _; now left | intros _; split; [eexists|]; reflexivity]|].
      split; [reflexivity|].
      split; [intros H; now elim H|]. split; [intros H; now elim H|].
      intros H. elim H. now left. }
  destruct (importFormat host this options) as [format|] eqn:Hfmt.
  2:{ assert (HB : formatUnspecified host this options) by now apply HF.
      split; [split; [intros _; right; now left
                     | intros _; split; [eexists|]; reflexivity]|].
      split; [discriminate|]. split; [reflexivity|].
      split; [intros _ H; now elim H|].
      intros H. elim H. right; now left. }
  assert (HnB : ~ formatUnspecified host this options).
  { intros HB. apply HF in HB. discriminate. }
  destruct (missingDestination host options) as [folderId|] eqn:Hdst.
  { apply missingDestination_Some in Hdst as [Hd1 Hd2].
    split; [split; [intros _; right; right; left; now exists folderId
                   | intros _; split; [eexists|]; reflexivity]|].
    split; [discriminate|]. split; [intros _ HB; now elim HnB|].
    split; [intros _ _ i Hi Hl; congruence|].
    intros H. elim H. right; right; left. now exists folderId. }
  assert (HnC : ~ exists i,
             truthyString (Options.destinationFolderId options) = Some i
             /\ load host TYPE_FOLDER i = None).
  { intros [i Hi]. apply missingDestination_Some in Hi. congruence. }
  destruct (importModule host this options format) as [inst|e] eqn:Hmod.
  - pose proof (importCalls_trace importer st0 (importOptions host options format))
      as Htr.
    destruct (importCalls importer st0 (importOptions host options format))
      as [[res st] tr] eqn:Hcalls. simpl in *.
    split.
    { split.
      - intros [_ H]. now elim Htr.
      - intros [H|[H|[H|[f [e [Hf He]]]]]]; try discriminate;
          try (now elim HnB); try (now elim HnC).
        congruence. }
    split; [discriminate|]. split; [intros _ HB; now elim HnB|].
    split; [intros _ _ i Hi Hl; elim HnC; now exists i|].
    intros _. exists format. split; [reflexivity | now rewrite Hcalls].
  - split; [split; [intros _; right; right; right; now exists format, e
                   | intros _; split; [eexists|]; reflexivity]|].
    split; [discriminate|]. split; [intros _ HB; now elim HnB|].
    split; [intros _ _ i Hi Hl; elim HnC; now exists i|].
    intros H. elim H. right; right; right. now exists format, e.
Qed.

(** C6 on the sample store: an ENEX file with the default format goes
    through [init] and [exec]. *)
Lemma import_fails_before_converter_witness :
  exists format,
    importFormat sampleHost sampleService (sampleOptions "/in/notes.ENEX" None)
    = Some format
    /\ (fst (import sampleHost sampleService countingImporter 0
                    (sampleOptions "/in/notes.ENEX" None)),
        converter (snd (import sampleHost sampleService countingImporter 0
                               (sampleOptions "/in/notes.ENEX" None))),
        trace (snd (import sampleHost sampleService countingImporter 0
                           (sampleOptions "/in/notes.ENEX" None))))
       = importCalls countingImporter 0
           (importOptions sampleHost (sampleOptions "/in/notes.ENEX" None) format).
Proof.
  apply (import_fails_before_converter sampleHost sampleService countingImporter 0
           (sampleOptions "/in/notes.ENEX" None)).
  intros [H|[[_ H]|[[i [H _]]|[f [e [Hf He]]]]]];
    try discriminate.
  vm_compute in Hf. injection Hf as <-. vm_compute in He. discriminate.
Defined.

(** C6, against the claim as stated: the source exists, the format is given
    and is not "auto", no destination is given, and still [import] fails
    before any converter call, because no importer is registered for the
    format. *)
Lemma import_unknown_format_counterexample :
  failedBeforeConverter
    (import sampleHost sampleService countingImporter 0
            (sampleOptions "/in/notes.zzz" (Some "zzz")))
  /\ fst (import sampleHost sampleService countingImporter 0
                 (sampleOptions "/in/notes.zzz" (Some "zzz")))
     = Err (CannotLoadModuleForOutput Importer "zzz" Markdown)
  /\ ~ (sourceNotFound sampleHost (sampleOptions "/in/notes.zzz" (Some "zzz"))
        \/ formatUnspecified sampleHost sampleService
                             (sampleOptions "/in/notes.zzz" (Some "zzz"))
        \/ destinationNotFound sampleHost
                               (sampleOptions "/in/notes.zzz" (Some "zzz"))).
Proof.
  split; [split; [eexists|]; reflexivity|].
  split; [reflexivity|].
  intros [H|[[[H|H] _]|[i [H _]]]]; discriminate.
Qed.

(* ================================================================== *)
(** ** Export pipeline: collection *)

Lemma push_all (A : Type) (f : A -> Entry.t) (l : list A) :
  forall q, fold_left (fun q x => q ++ [f x]) l q = q ++ map f l.
Proof.
  induction l as [|x l IH]; intros q; simpl.
  - now rewrite app_nil_r.
  - rewrite IH, <- app_assoc. reflexivity.
Qed.

Lemma collectNoteTags_shape exported nts :
  forall q tagIds,
    collectNoteTags exported nts q tagIds
    = (q ++ map (fun nt => entryById TYPE_NOTE_TAG (NoteTag.id nt))
                (filter (fun nt => includes (NoteTag.note_id nt) exported) nts),
       tagIds ++ map NoteTag.tag_id
                     (filter (fun nt => includes (NoteTag.note_id nt) exported) nts)).
Proof.
  induction nts as [|nt nts IH]; intros q tagIds; simpl.
  - now rewrite !app_nil_r.
  - destruct (includes (NoteTag.note_id nt) exported); simpl.
    + rewrite IH, <- !app_assoc. reflexivity.
    + apply IH.
Qed.

(** The queue that [collect] returns: what the loop over the folders has
    queued, then one Attachment entry per id of the deduplicated list, then
    one LabelAssignment entry per exported label-assignment, then one Label
    entry per exported label-assignment. *)
Lemma collect_shape host options q :
  collect host options = Ok q ->
  exists c,
    collectFolders host
      (fold_left (fun full id => full ++ Folder_childrenIds host id None)
                 (match Options.sourceFolderIds options with Some l => l | None => [] end)
                 (match Options.sourceFolderIds options with Some l => l | None => [] end))
      (match Options.sourceNoteIds options with Some l => l | None => [] end)
      (Folder_childrenIds host EmptyString (Some true))
      {| itemsToExport := []; exportedNoteIds := []; resourceIds := [] |} = Ok c
    /\ q = itemsToExport c
           ++ map (entryById TYPE_RESOURCE) (ArrayUtils_unique (resourceIds c))
           ++ map (entryById TYPE_NOTE_TAG)
                  (map NoteTag.id (exportedNoteTags host (exportedNoteIds c)))
           ++ map (entryById TYPE_TAG)
                  (map NoteTag.tag_id (exportedNoteTags host (exportedNoteIds c))).
Proof.
  unfold collect. intros H.
  destruct (collectFolders _ _ _ _ _) as [c|e] eqn:Hc; [|discriminate].
  exists c. split; [reflexivity|].
  rewrite collectNoteTags_shape in H. rewrite !push_all in H.
  injection H as <-. unfold exportedNoteTags.
  rewrite !map_map, <- !app_assoc. reflexivity.
Qed.

(** C1, on the code.  In the sample store the notes [n1] and [n2] carry the
    same label [t1]: the collected queue holds two Label entries with the
    id [t1], one per exported label-assignment, where the claim allows
    one. *)
Theorem collect_repeats_label_entries :
  exists q,
    collect sampleHost exportAllOptions = Ok q
    /\ countEntries TYPE_TAG "t1" q = 2
    /\ countEntries TYPE_NOTE_TAG "nt1" q = 1
    /\ countEntries TYPE_NOTE_TAG "nt2" q = 1.
Proof.
  eexists. split; [reflexivity|]. repeat split; reflexivity.
Qed.

Lemma filter_map_const_type (A : Type) (f : A -> Entry.t) (t' t : ItemType)
    (l : list A) :
  (forall x, Entry.type (f x) = t') ->
  filter (hasType t) (map f l) = if ItemType_eqb t' t then map f l else [].
Proof.
  intros Hf. unfold hasType.
  induction l as [|x l IH]; simpl.
  - now destruct (ItemType_eqb t' t).
  - rewrite Hf, IH. now destruct (ItemType_eqb t' t).
Qed.

Lemma filter_entryById t t' l :
  filter (hasType t) (map (entryById t') l)
  = if ItemType_eqb t' t then map (entryById t') l else [].
Proof. now apply filter_map_const_type. Qed.

Lemma filter_noteEntry t l :
  filter (hasType t) (map noteEntry l)
  = if ItemType_eqb TYPE_NOTE t then map noteEntry l else [].
Proof. now apply filter_map_const_type. Qed.

(** The loop over the notes of a folder queues the notes that pass the
    filter, each one loaded, in order. *)
Lemma collectNotes_shape host sourceNoteIds noteIds :
  forall c c',
    collectNotes host sourceNoteIds noteIds c = Ok c' ->
    exists notes,
      map (load host TYPE_NOTE)
          (filter (fun n => negb (filteredOut sourceNoteIds n)) noteIds)
      = map Some notes
      /\ itemsToExport c' = itemsToExport c ++ map noteEntry notes
      /\ exportedNoteIds c'
         = exportedNoteIds c
           ++ filter (fun n => negb (filteredOut sourceNoteIds n)) noteIds
      /\ resourceIds c'
         = resourceIds c
           ++ flat_map (fun n => Note_linkedResourceIds host (Item.body n)) notes.
Proof.
  induction noteIds as [|noteId rest IH]; intros c c' H; simpl in H.
  - injection H as <-. exists []. simpl. now rewrite !app_nil_r.
  - simpl. destruct (filteredOut sourceNoteIds noteId); simpl.
    + now apply IH.
    + destruct (load host TYPE_NOTE noteId) as [note|] eqn:Hload; [|discriminate].
      apply IH in H as [notes [H1 [H2 [H3 H4]]]]. simpl in *.
      exists (note :: notes). simpl.
      rewrite H1, H2, H3, H4, <- !app_assoc. repeat split; reflexivity.
Qed.

(** The loop over the folders: the folders that pass the filter are queued
    (when no note filter is given), with the notes under them; nothing of
    another type is queued. *)
Lemma collectFolders_shape host sourceFolderIds sourceNoteIds folderIds :
  forall c c',
    collectFolders host sourceFolderIds sourceNoteIds folderIds c = Ok c' ->
    let kept := filter (fun f => negb (filteredOut sourceFolderIds f)) folderIds in
    exists notes,
      map (load host TYPE_NOTE)
          (flat_map (fun f => filter (fun n => negb (filteredOut sourceNoteIds n))
                                     (Folder_noteIds host f)) kept)
      = map Some notes
      /\ filter (hasType TYPE_FOLDER) (itemsToExport c')
         = filter (hasType TYPE_FOLDER) (itemsToExport c)
           ++ match sourceNoteIds with
              | [] => map (entryById TYPE_FOLDER) kept
              | _ :: _ => []
              end
      /\ filter (hasType TYPE_NOTE) (itemsToExport c')
         = filter (hasType TYPE_NOTE) (itemsToExport c) ++ map noteEntry notes
      /\ (forall t, t <> TYPE_FOLDER -> t <> TYPE_NOTE ->
                    filter (hasType t) (itemsToExport c')
                    = filter (hasType t) (itemsToExport c))
      /\ exportedNoteIds c'
         = exportedNoteIds c
           ++ flat_map (fun f => filter (fun n => negb (filteredOut sourceNoteIds n))
                                        (Folder_noteIds host f)) kept
      /\ resourceIds c'
         = resourceIds c
           ++ flat_map (fun n => Note_linkedResourceIds host (Item.body n)) notes.
Proof.
  induction folderIds as [|folderId rest IH]; intros c c' H; simpl in H.
  - injection H as <-. exists []. simpl. rewrite !app_nil_r.
    repeat split; try reflexivity.
    destruct sourceNoteIds; now rewrite app_nil_r.
  - simpl. destruct (filteredOut sourceFolderIds folderId); simpl.
    + now apply IH.
    + destruct (collectNotes host sourceNoteIds (Folder_noteIds host folderId) _)
        as [c1|e] eqn:Hnotes; [|discriminate].
      apply collectNotes_shape in Hnotes as [notes1 [N1 [N2 [N3 N4]]]].
      apply IH in H as [notes2 [F1 [F2 [F3 [F4 [F5 F6]]]]]].
      exists (notes1 ++ notes2).
      rewrite !map_app, !flat_map_app, F1, N1, F2, F3, F5, F6, N2, N3, N4.
      rewrite !filter_app, !filter_noteEntry. simpl.
      split; [reflexivity|].
      split.
      { destruct sourceNoteIds; unfold queueExportItem; simpl;
          rewrite ?filter_app; simpl;
          rewrite ?app_nil_r, <- ?app_assoc; reflexivity. }
      split.
      { destruct sourceNoteIds; unfold queueExportItem; simpl;
          rewrite ?filter_app; simpl;
          rewrite ?app_nil_r, <- ?app_assoc; reflexivity. }
      split.
      { intros t Ht1 Ht2. rewrite F4 by assumption. rewrite N2, filter_app.
        rewrite filter_noteEntry.
        destruct (ItemType_eqb_spec TYPE_NOTE t) as [<-|_]; [now elim Ht2|].
        destruct sourceNoteIds; unfold queueExportItem; simpl;
          rewrite ?filter_app; simpl; rewrite ?app_nil_r; [|reflexivity].
        unfold hasType at 2. simpl.
        destruct t; try (now elim Ht1); now rewrite app_nil_r. }
      split; destruct sourceNoteIds; simpl; now rewrite <- ?app_assoc.
Qed.

Lemma filter_all (A : Type) (p : A -> bool) (l : list A) :
  (forall x, p x = true) -> filter p l = l.
Proof.
  intros Hp. induction l as [|x l IH]; simpl; [reflexivity|].
  now rewrite Hp, IH.
Qed.

Lemma flat_map_filter_all (A B : Type) (p : B -> bool) (f : A -> list B)
    (l : list A) :
  (forall x, p x = true) ->
  flat_map (fun a => filter p (f a)) l = flat_map f l.
Proof.
  intros Hp. induction l as [|a l IH]; simpl; [reflexivity|].
  now rewrite IH, filter_all.
Qed.

Lemma countEntries_app t id q1 q2 :
  countEntries t id (q1 ++ q2) = countEntries t id q1 + countEntries t id q2.
Proof. unfold countEntries. now rewrite filter_app, length_app. Qed.

Lemma countEntries_entryById t id t' l :
  countEntries t id (map (entryById t') l)
  = if ItemType_eqb t' t then occurrences id l else 0.
Proof.
  unfold countEntries, occurrences.
  induction l as [|x l IH]; simpl.
  - now destruct (ItemType_eqb t' t).
  - destruct (ItemType_eqb t' t); simpl.
    + destruct (String.eqb x id); simpl; now rewrite IH.
    + exact IH.
Qed.

Lemma countEntries_none t id q :
  filter (hasType t) q = [] -> countEntries t id q = 0.
Proof.
  unfold countEntries, hasType.
  induction q as [|e q IH]; simpl; [reflexivity|].
  destruct (ItemType_eqb (Entry.type e) t); simpl; [discriminate | exact IH].
Qed.

Lemma includes_cons x y l :
  includes x (y :: l) = (String.eqb x y || includes x l)%bool.
Proof. reflexivity. Qed.

(** The deduplicated list holds every id of the list once, and no other. *)
Lemma unique_from_occurrences id l :
  forall seen,
    occurrences id (unique_from seen l)
    = if includes id seen then 0 else if includes id l then 1 else 0.
Proof.
  unfold occurrences.
  induction l as [|x l IH]; intros seen; cbn [unique_from].
  - now destruct (includes id seen).
  - rewrite (includes_cons id x l).
    destruct (includes x seen) eqn:Hx.
    + rewrite IH.
      destruct (String.eqb_spec id x) as [->|Hne]; cbn [orb].
      * now rewrite Hx.
      * reflexivity.
    + cbn [filter]. rewrite (String.eqb_sym x id).
      destruct (String.eqb_spec id x) as [->|Hne]; cbn [orb List.length].
      * rewrite IH, includes_cons, String.eqb_refl, Hx. reflexivity.
      * rewrite IH, includes_cons.
        destruct (String.eqb_spec id x) as [->|_]; [now elim Hne|].
        reflexivity.
Qed.

Lemma ArrayUtils_unique_occurrences id l :
  occurrences id (ArrayUtils_unique l) = if includes id l then 1 else 0.
Proof. unfold ArrayUtils_unique. now rewrite unique_from_occurrences. Qed.

(** C8.  With no folder filter and no note filter, the queue holds one
    Container entry for every folder of the store's listing and one Document
    entry, already loaded, for every note listed under those folders, in the
    order of the listings; and an attachment id linked by one or more of the
    exported notes is queued as one Attachment entry, an id linked by none as
    no entry. *)
Theorem collect_without_filters :
  forall (host : Host) (options : Options.t) (q : list Entry.t),
    (Options.sourceFolderIds options = None
     \/ Options.sourceFolderIds options = Some []) ->
    (Options.sourceNoteIds options = None
     \/ Options.sourceNoteIds options = Some []) ->
    collect host options = Ok q ->
    exists notes,
      map (load host TYPE_NOTE)
          (flat_map (Folder_noteIds host)
                    (Folder_childrenIds host EmptyString (Some true)))
      = map Some notes
      /\ filter (hasType TYPE_FOLDER) q
         = map (entryById TYPE_FOLDER)
               (Folder_childrenIds host EmptyString (Some true))
      /\ filter (hasType TYPE_NOTE) q = map noteEntry notes
      /\ (forall folderId,
             countEntries TYPE_FOLDER folderId q
             = occurrences folderId
                           (Folder_childrenIds host EmptyString (Some true)))
      /\ (forall rid,
             In rid (flat_map (fun n => Note_linkedResourceIds host (Item.body n))
                              notes) ->
             countEntries TYPE_RESOURCE rid q = 1)
      /\ (forall rid,
             ~ In rid (flat_map (fun n => Note_linkedResourceIds host (Item.body n))
                                notes) ->
             countEntries TYPE_RESOURCE rid q = 0).
Proof.
  intros host options q Hf Hn Hq.
  apply collect_shape in Hq as [c [Hc ->]].
  assert (Hsf : match Options.sourceFolderIds options with
                | Some l => l | None => [] end = [])
    by (destruct Hf as [-> | ->]; reflexivity).
  assert (Hsn : match Options.sourceNoteIds options with
                | Some l => l | None => [] end = [])
    by (destruct Hn as [-> | ->]; reflexivity).
  rewrite Hsf, Hsn in Hc. simpl in Hc.
  apply collectFolders_shape in Hc as [notes [C1 [C2 [C3 [C4 [C5 C6]]]]]].
  simpl in *.
  rewrite (@flat_map_filter_all Id Id (fun _ => true)) in C1, C5 by reflexivity.
  rewrite (@filter_all Id (fun _ => true)) in C1, C2, C5 by reflexivity.
  exists notes.
  split; [exact C1|].
  split.
  { rewrite !filter_app, C2, !filter_entryById. simpl. now rewrite ?app_nil_r. }
  split.
  { rewrite !filter_app, C3, !filter_entryById. simpl. now rewrite ?app_nil_r. }
  assert (Hres : filter (hasType TYPE_RESOURCE) (itemsToExport c) = [])
    by (now rewrite C4 by discriminate).
  assert (Hfold : forall id, countEntries TYPE_FOLDER id (itemsToExport c)
                             = occurrences id (Folder_childrenIds host EmptyString (Some true))).
  { intros id.
    assert (H : forall t i l, countEntries t i l = countEntries t i (filter (hasType t) l)).
    { intros t i l. unfold countEntries, hasType.
      induction l as [|e l IH]; simpl; [reflexivity|].
      destruct (ItemType_eqb (Entry.type e) t) eqn:E; simpl.
      - rewrite E. simpl. destruct (Entry.itemOrId e); simpl; [|exact IH].
        destruct (String.eqb id0 i); simpl; now rewrite IH.
      - exact IH. }
    rewrite H, C2, countEntries_entryById. reflexivity. }
  split.
  { intros id. rewrite !countEntries_app, Hfold, !countEntries_entryById.
    simpl. lia. }
  rewrite C6.
  split.
  - intros rid Hin.
    rewrite !countEntries_app, (@countEntries_none TYPE_RESOURCE rid _ Hres),
      !countEntries_entryById. simpl.
    rewrite ArrayUtils_unique_occurrences.
    apply includes_In in Hin. now rewrite Hin.
  - intros rid Hin.
    rewrite !countEntries_app, (@countEntries_none TYPE_RESOURCE rid _ Hres),
      !countEntries_entryById. simpl.
    rewrite ArrayUtils_unique_occurrences.
    destruct (includes rid _) eqn:E; [|reflexivity].
    apply includes_In in E. now elim Hin.
Qed.

(** C8 on the sample store, where the notes [n1] and [n2] both link the
    resource [r1]. *)
Lemma collect_without_filters_witness :
  exists q,
    collect sampleHost exportAllOptions = Ok q
    /\ filter (hasType TYPE_FOLDER) q = [entryById TYPE_FOLDER "f1"]
    /\ countEntries TYPE_RESOURCE "r1" q = 1.
Proof.
  eexists. split; [reflexivity|].
  destruct (@collect_without_filters sampleHost exportAllOptions _
              (or_introl eq_refl) (or_introl eq_refl) eq_refl)
    as [notes [H1 [H2 [H3 [H4 [H5 H6]]]]]].
  split; [exact H2|].
  apply H5.
  assert (Hnotes : notes = [sampleItem "n1" "First" "r1 r2" false;
                            sampleItem "n2" "Second" "r1" false;
                            sampleItem "n3" "Third" EmptyString true]).
  { vm_compute in H1.
    destruct notes as [|a [|b [|c' [|d l]]]]; try discriminate.
    now injection H1 as <- <- <-. }
  subst notes. vm_compute. now left.
Defined.

(* ================================================================== *)
(** ** Export pipeline: dispatch *)

Ltac run_steps :=
  unfold bind, ret, lift, throw, uncaught, try_catch, call, pushWarning,
    logEvent, setConverter, setContext; simpl.

Ltac tidy_log := simpl; rewrite <- ?app_assoc; simpl.

(** Both sides of an equation between lists, right-nested. *)
Ltac same_list :=
  repeat (progress (simpl; rewrite <- ?app_assoc; rewrite ?app_nil_r));
  reflexivity.


Ltac entry_calls host e item Hty c o1 o2 o3 :=
  eexists; exists (itemCalls host (Entry.type e) item c o1 o2 o3);
  split; [reflexivity|];
  split; [unfold itemCalls; rewrite Hty; tidy_log; reflexivity|];
  split; [now apply body_calls|];
  unfold itemCalls; rewrite Hty; simpl; rewrite ?app_nil_r; reflexivity.

(** The body of the dispatch loop never throws; it logs the entry and then
    one of the three bodies of [EntryBody], pushing the warnings it logs. *)
Lemma processEntry_body host St (exporter : Exp.t St) i e (s : RunState St) :
  exists s' body,
    processEntry host exporter i e s = (Ok tt, s')
    /\ trace s' = trace s ++ EvEntry i :: body
    /\ EntryBody host e body
    /\ warnings (result s') = warnings (result s) ++ pushed body.
Proof.
  assert (Hitem : forall item,
             resolved host e = Some item ->
             exists s' body,
               (if Item.encryption_applied item || Item.encryption_blob_encrypted item
                then fun s0 : RunState St =>
                       (@Ok Error unit tt,
                        pushWarning (encryptedWarning host (Entry.type e) item) s0)
                else try_catch (dispatchItem host exporter (Entry.type e) item)
                               (fun message s0 => (Ok tt, pushWarning message s0)))
                 (logEvent (EvEntry i) s) = (Ok tt, s')
               /\ trace s' = trace s ++ EvEntry i :: body
               /\ EntryBody host e body
               /\ warnings (result s') = warnings (result s) ++ pushed body).
  { intros item Hres.
    destruct (Item.encryption_applied item || Item.encryption_blob_encrypted item)
      eqn:Henc.
    - eexists. exists [EvWarning (encryptedWarning host (Entry.type e) item)].
      split; [reflexivity|]. split; [tidy_log; reflexivity|].
      split; [now apply body_encrypted | reflexivity].
    - unfold dispatchItem. run_steps.
      destruct (ItemType_eqb (Entry.type e) TYPE_RESOURCE) eqn:Hty; simpl.
      + set (c := {| resourcePaths :=
                       setProperty (Item.id item) (Resource_fullPath host item)
                                   (resourcePaths (context s)) |}).
        destruct (Exp.updateContext exporter c (converter s)) as [st1 o1] eqn:H1.
        destruct o1 as [[]|m1]; simpl.
        * destruct (Exp.processResource exporter item _ st1) as [st2 o2] eqn:H2.
          destruct o2 as [[]|m2]; simpl.
          -- destruct (Exp.processItem exporter (Entry.type e) item st2)
               as [st3 o3] eqn:H3.
             destruct o3 as [[]|m3]; simpl.
             ++ entry_calls host e item Hty c (@Ok string unit tt) (@Ok string unit tt) (@Ok string unit tt).
             ++ entry_calls host e item Hty c (@Ok string unit tt) (@Ok string unit tt) (@Err string unit m3).
          -- entry_calls host e item Hty c (@Ok string unit tt) (@Err string unit m2) (@Ok string unit tt).
        * entry_calls host e item Hty c (@Err string unit m1) (@Ok string unit tt) (@Ok string unit tt).
      + destruct (Exp.processItem exporter (Entry.type e) item (converter s))
          as [st3 o3] eqn:H3.
        destruct o3 as [[]|m3]; simpl.
        * entry_calls host e item Hty (context s) (@Ok string unit tt) (@Ok string unit tt) (@Ok string unit tt).
        * entry_calls host e item Hty (context s) (@Ok string unit tt) (@Ok string unit tt)
                      (@Err string unit m3). }
  unfold processEntry. unfold bind at 1.
  destruct (Entry.itemOrId e) as [id|item] eqn:Hio.
  - destruct (load host (Entry.type e) id) as [item|] eqn:Hload.
    + apply Hitem. unfold resolved. now rewrite Hio.
    + eexists. exists [EvWarning (missingWarning host (Entry.type e) id)].
      split; [reflexivity|]. split; [tidy_log; reflexivity|].
      split; [now apply body_missing | reflexivity].
  - apply Hitem. unfold resolved. now rewrite Hio.
Qed.

Lemma pushed_app l1 l2 : pushed (l1 ++ l2) = pushed l1 ++ pushed l2.
Proof.
  induction l1 as [|ev l1 IH]; simpl; [reflexivity|].
  destruct ev; simpl; now rewrite ?IH.
Qed.

(** The inner loop never throws, and its log is a [TypeBlock]. *)
Lemma forEachEntry_block host St (exporter : Exp.t St) t q :
  forall i (s : RunState St),
    exists s' tr,
      forEachEntry host exporter t i q s = (Ok tt, s')
      /\ trace s' = trace s ++ tr
      /\ TypeBlock host t i q tr
      /\ warnings (result s') = warnings (result s) ++ pushed tr.
Proof.
  induction q as [|e q IH]; intros i s; simpl.
  - exists s, []. rewrite !app_nil_r. repeat split; constructor.
  - unfold bind.
    destruct (ItemType_eqb_spec (Entry.type e) t) as [Heq|Hne]; simpl.
    + destruct (processEntry_body host exporter i e s)
        as [s1 [body [Hrun [Htr [Hbody Hw]]]]].
      rewrite Hrun.
      destruct (IH (S i) s1) as [s2 [tr [Hrun2 [Htr2 [Hblock Hw2]]]]].
      exists s2, (EvEntry i :: body ++ tr).
      split; [exact Hrun2|].
      split; [rewrite Htr2, Htr, <- app_assoc; reflexivity|].
      split; [now apply block_entry|].
      rewrite Hw2, Hw. simpl. now rewrite pushed_app, app_assoc.
    + unfold ret.
      destruct (IH (S i) s) as [s2 [tr [Hrun2 [Htr2 [Hblock Hw2]]]]].
      exists s2, tr. repeat split; try assumption. now apply block_other.
Qed.

(** When the outer loop returns, its log is made of one block per type. *)
Lemma forEachType_blocks host St (exporter : Exp.t St) q ts :
  forall (s s' : RunState St) u,
    forEachType host exporter ts q s = (Ok u, s') ->
    exists tr,
      trace s' = trace s ++ tr
      /\ Blocks host q ts tr
      /\ warnings (result s') = warnings (result s) ++ pushed tr.
Proof.
  induction ts as [|t ts IH]; intros s s' u H; simpl in H.
  - injection H as _ <-. exists []. rewrite !app_nil_r.
    repeat split; constructor.
  - revert H. run_steps.
    destruct (Exp.prepareForProcessingItemType exporter t q (converter s))
      as [st1 [[]|message]]; simpl; [|discriminate].
    match goal with
    | |- context [forEachEntry host exporter t 0 q ?s1] =>
      destruct (forEachEntry_block host exporter t q 0 s1)
        as [s2 [block [Hrun [Htr [Hblock Hw]]]]]
    end.
    rewrite Hrun. intros H.
    apply IH in H as [tr [Htr2 [Hblocks Hw2]]].
    exists (EvPrepare t q Returned :: block ++ tr).
    split; [rewrite Htr2, Htr; tidy_log; reflexivity|].
    split; [now apply blocks_type|].
    rewrite Hw2, Hw. simpl. now rewrite pushed_app, app_assoc.
Qed.

(** The outer loop returns when [prepareForProcessingItemType] does. *)
Lemma forEachType_returns host St (exporter : Exp.t St) q ts :
  (forall t st, snd (Exp.prepareForProcessingItemType exporter t q st) = Returned) ->
  forall s : RunState St,
    exists s', forEachType host exporter ts q s = (Ok tt, s').
Proof.
  intros Hprep. induction ts as [|t ts IH]; intros s; simpl.
  - now exists s.
  - run_steps. specialize (Hprep t (converter s)).
    destruct (Exp.prepareForProcessingItemType exporter t q (converter s))
      as [st1 o]. simpl in Hprep. subst o. simpl.
    match goal with
    | |- context [forEachEntry host exporter t 0 q ?s1] =>
      destruct (forEachEntry_block host exporter t q 0 s1)
        as [s2 [block [Hrun _]]]
    end.
    rewrite Hrun. apply IH.
Qed.

(** The log of a run of [export] that returns: [init], the blocks of the
    five types over the collected queue, [close]; the warnings of the result
    are the warnings pushed in the log. *)
Lemma export_log host this St (exporter : Exp.t St) st0 options r s :
  export host this exporter st0 options = (Ok r, s) ->
  exists q blocks,
    collect host options = Ok q
    /\ trace s = EvInit (truthyString (Some (Options.path options)))
                        (exportDefaults options) Returned
                 :: blocks ++ [EvClose Returned]
    /\ Blocks host q typeOrder blocks
    /\ warnings r = pushed (trace s).
Proof.
  unfold export, exportM. remember typeOrder as ts eqn:Hts.
  unfold bind at 1, lift at 1.
  change (collect host (exportDefaults options)) with (collect host options).
  destruct (collect host options) as [q|e]; [|discriminate].
  unfold bind at 1, lift at 1.
  destruct (newModuleFromPath_ host this Exporter _) as [inst|e]; [|discriminate].
  unfold bind at 1. run_steps.
  destruct (Exp.init exporter _ _ st0) as [st1 [[]|message]]; simpl;
    [|discriminate].
  match goal with
  | |- context [forEachType host exporter ts q ?s1] =>
    destruct (forEachType host exporter ts q s1) as [[u|e] s2] eqn:Hloop;
      [|discriminate]
  end.
  apply forEachType_blocks in Hloop as [blocks [Htr [Hblocks Hw]]].
  simpl in Htr, Hw.
  destruct (Exp.close exporter (converter s2)) as [st3 [[]|message]]; simpl;
    [|discriminate].
  intros [= <- <-]. simpl.
  exists q, blocks. split; [reflexivity|].
  split; [rewrite Htr; reflexivity|].
  split; [assumption|].
  rewrite Hw, Htr. simpl. rewrite !pushed_app. simpl. now rewrite app_nil_r.
Qed.

(** [export] returns when the queue can be collected, an exporter is
    resolved, and [init], [prepareForProcessingItemType] and [close] return;
    whatever the calls for the entries do. *)
Lemma export_returns host this St (exporter : Exp.t St) st0 options q inst :
  collect host options = Ok q ->
  newModuleFromPath_ host this Exporter (Some (exportDefaults options)) = Ok inst ->
  (forall path o st, snd (Exp.init exporter path o st) = Returned) ->
  (forall t st, snd (Exp.prepareForProcessingItemType exporter t q st) = Returned) ->
  (forall st, snd (Exp.close exporter st) = Returned) ->
  exists r s, export host this exporter st0 options = (Ok r, s).
Proof.
  intros Hq Hinst Hinit Hprep Hclose.
  unfold export, exportM. remember typeOrder as ts eqn:Hts.
  unfold bind at 1, lift at 1.
  change (collect host (exportDefaults options)) with (collect host options).
  rewrite Hq. unfold bind at 1, lift at 1. rewrite Hinst.
  unfold bind at 1. run_steps.
  match goal with
  | |- context [Exp.init exporter ?p ?o st0] =>
    specialize (Hinit p o st0); destruct (Exp.init exporter p o st0) as [st1 o1]
  end.
  simpl in Hinit. subst o1. simpl.
  match goal with
  | |- context [forEachType host exporter ts q ?s1] =>
    destruct (@forEachType_returns host St exporter q ts Hprep s1) as [s2 Hloop]
  end.
  rewrite Hloop.
  specialize (Hclose (converter s2)).
  destruct (Exp.close exporter (converter s2)) as [st3 o3].
  simpl in Hclose. subst o3. simpl. eauto.
Qed.

(** *** The steps of a log *)

Lemma steps_app l1 l2 : steps (l1 ++ l2) = steps l1 ++ steps l2.
Proof.
  induction l1 as [|ev l1 IH]; simpl; [reflexivity|].
  destruct ev; simpl; now rewrite ?IH.
Qed.

Lemma closeCalls_app l1 l2 : closeCalls (l1 ++ l2) = closeCalls l1 + closeCalls l2.
Proof.
  induction l1 as [|ev l1 IH]; simpl; [reflexivity|].
  destruct ev; simpl; now rewrite ?IH.
Qed.

Lemma itemCalls_inner host t item c o1 o2 o3 :
  steps (itemCalls host t item c o1 o2 o3) = []
  /\ closeCalls (itemCalls host t item c o1 o2 o3) = 0.
Proof.
  unfold itemCalls.
  destruct (ItemType_eqb t TYPE_RESOURCE), o1 as [[]|m1], o2 as [[]|m2],
    o3 as [[]|m3]; split; reflexivity.
Qed.

Lemma EntryBody_inner host e body :
  EntryBody host e body -> steps body = [] /\ closeCalls body = 0.
Proof.
  intros [id Hid Hload | item Hres Henc | item c o1 o2 o3 Hres Henc].
  - split; reflexivity.
  - split; reflexivity.
  - apply itemCalls_inner.
Qed.

Lemma TypeBlock_steps host t i q tr :
  TypeBlock host t i q tr ->
  steps tr = map Visit (positionsFrom i t q) /\ closeCalls tr = 0.
Proof.
  induction 1 as [i | i e q tr Hne _ [IH1 IH2] | i e q body tr Heq Hbody _ [IH1 IH2]];
    simpl.
  - split; reflexivity.
  - destruct (ItemType_eqb_spec (Entry.type e) t) as [Heq|_]; [now elim Hne|].
    now split.
  - destruct (ItemType_eqb_spec (Entry.type e) t) as [_|Hne]; [|now elim Hne].
    destruct (EntryBody_inner Hbody) as [B1 B2].
    rewrite steps_app, closeCalls_app, B1, B2, IH1, IH2. split; reflexivity.
Qed.

Lemma Blocks_steps host q ts tr :
  Blocks host q ts tr ->
  steps tr = flat_map (fun t => Prepare t q :: map Visit (positionsOf t q)) ts
  /\ closeCalls tr = 0.
Proof.
  induction 1 as [| t ts block tr Hblock _ [IH1 IH2]]; simpl.
  - split; reflexivity.
  - destruct (TypeBlock_steps Hblock) as [B1 B2].
    rewrite steps_app, closeCalls_app, B1, B2, IH1, IH2. split; reflexivity.
Qed.







(** *** Errors of the calls for an entry *)

Lemma Answered_app l1 l2 : Answered l1 -> Answered l2 -> Answered (l1 ++ l2).
Proof.
  induction l1 as [|ev l1 IH]; simpl; intros H1 H2; [exact H2|].
  destruct (thrownBy ev) as [message|].
  - destruct H1 as [[rest' ->] H1]. split.
    + eexists. reflexivity.
    + now apply IH.
  - now apply IH.
Qed.

Lemma Answered_split tr :
  Answered tr ->
  forall before ev after message,
    tr = before ++ ev :: after ->
    thrownBy ev = Some message ->
    exists after', after = EvWarning message :: after'.
Proof.
  induction tr as [|ev0 tr IH]; intros H before ev after message Heq Hth.
  - destruct before; discriminate.
  - destruct before as [|b before]; simpl in Heq; injection Heq as -> ->.
    + simpl in H. rewrite Hth in H. now destruct H.
    + simpl in H. eapply IH; [|reflexivity|exact Hth].
      destruct (thrownBy b); [now destruct H | exact H].
Qed.

Lemma itemCalls_Answered host t item c o1 o2 o3 :
  Answered (itemCalls host t item c o1 o2 o3).
Proof.
  unfold itemCalls.
  destruct (ItemType_eqb t TYPE_RESOURCE), o1 as [[]|m1], o2 as [[]|m2],
    o3 as [[]|m3]; simpl; repeat split; eauto.
Qed.

Lemma EntryBody_Answered host e body : EntryBody host e body -> Answered body.
Proof.
  intros [id Hid Hload | item Hres Henc | item c o1 o2 o3 Hres Henc];
    simpl; auto using itemCalls_Answered.
Qed.

Lemma TypeBlock_Answered host t i q tr : TypeBlock host t i q tr -> Answered tr.
Proof.
  induction 1 as [i | i e q tr Hne _ IH | i e q body tr Heq Hbody _ IH]; simpl; auto.
  apply Answered_app; [now apply EntryBody_Answered with (1 := Hbody) | exact IH].
Qed.

Lemma Blocks_Answered host q ts tr : Blocks host q ts tr -> Answered tr.
Proof.
  induction 1 as [| t ts block tr Hblock _ IH]; simpl; auto.
  apply Answered_app; [now apply TypeBlock_Answered with (1 := Hblock) | exact IH].
Qed.

Lemma pushed_In before message after :
  In message (pushed (before ++ EvWarning message :: after)).
Proof. rewrite pushed_app. apply in_or_app. right. now left. Qed.

(** C4.  When the queue is collected, an exporter is resolved and [init],
    [prepareForProcessingItemType] and [close] return, the run of [export]
    returns whatever the calls for the entries do: every error thrown by
    [updateContext], [processResource] or [processItem] is followed at once
    by the warning that carries its message, which is among the warnings of
    the result; all the entries of the queue are still taken, in the order
    of dispatch; [close] is called once, as the last call; and the result
    returned holds the warnings pushed during the run. *)
Theorem export_isolates_entry_errors :
  forall (host : Host) (this : InteropService) (St : Type)
         (exporter : Exp.t St) (st0 : St) (options : Options.t)
         (q : list Entry.t) (inst : ModuleInstance),
    collect host options = Ok q ->
    newModuleFromPath_ host this Exporter (Some (exportDefaults options)) = Ok inst ->
    (forall path o st, snd (Exp.init exporter path o st) = Returned) ->
    (forall t st, snd (Exp.prepareForProcessingItemType exporter t q st) = Returned) ->
    (forall st, snd (Exp.close exporter st) = Returned) ->
    exists r s,
      export host this exporter st0 options = (Ok r, s)
      /\ (forall before ev after message,
             trace s = before ++ ev :: after ->
             thrownBy ev = Some message ->
             exists after', after = EvWarning message :: after')
      /\ (forall ev message,
             In ev (trace s) -> thrownBy ev = Some message ->
             In message (warnings r))
      /\ warnings r = pushed (trace s)
      /\ steps (trace s)
         = flat_map (fun t => Prepare t q :: map Visit (positionsOf t q))
                    [TYPE_FOLDER; TYPE_RESOURCE; TYPE_NOTE; TYPE_TAG; TYPE_NOTE_TAG]
      /\ (exists calls, trace s = calls ++ [EvClose Returned]
                        /\ closeCalls calls = 0)
      /\ closeCalls (trace s) = 1.
Proof.
  intros host this St exporter st0 options q inst Hq Hinst Hinit Hprep Hclose.
  destruct (export_returns host this exporter st0 options Hq Hinst Hinit Hprep Hclose)
    as [r [s Hrun]].
  exists r, s. split; [exact Hrun|].
  apply export_log in Hrun as [q' [blocks [Hq' [Htr [Hblocks Hw]]]]].
  assert (q' = q) by congruence. subst q'.
  assert (Hans : Answered (trace s)).
  { rewrite Htr. simpl.
    apply Answered_app; [now apply Blocks_Answered with (1 := Hblocks)|].
    simpl. exact I. }
  destruct (Blocks_steps Hblocks) as [Hsteps Hcl].
  split; [exact (@Answered_split _ Hans)|].
  split.
  { intros ev message Hin Hth.
    apply in_split in Hin as [before [after Heq]].
    destruct (@Answered_split _ Hans _ _ _ _ Heq Hth) as [after' ->].
    rewrite Hw, Heq.
    change (before ++ ev :: EvWarning message :: after')
      with (before ++ [ev] ++ EvWarning message :: after').
    rewrite app_assoc. apply pushed_In. }
  split; [exact Hw|].
  split.
  { rewrite Htr. simpl. rewrite steps_app, Hsteps. simpl. now rewrite app_nil_r. }
  split.
  { exists (EvInit (truthyString (Some (Options.path options)))
                   (exportDefaults options) Returned :: blocks).
    split; [rewrite Htr; reflexivity | exact Hcl]. }
  rewrite Htr. simpl. rewrite closeCalls_app, Hcl. reflexivity.
Qed.

(** C4 on the sample store, where the exporter throws on the note [n2]: the
    run returns with that message among its warnings. *)
Lemma export_isolates_entry_errors_witness :
  exists r s,
    export sampleHost sampleService countingExporter 0 exportAllOptions = (Ok r, s)
    /\ In "cannot write n2" (warnings r)
    /\ closeCalls (trace s) = 1.
Proof.
  destruct (@export_isolates_entry_errors sampleHost sampleService nat
              countingExporter 0 exportAllOptions _ _ eq_refl eq_refl
              (fun _ _ _ => eq_refl) (fun _ _ => eq_refl) (fun _ => eq_refl))
    as [r [s [Hrun [_ [Hin [_ [_ [_ Hclose]]]]]]]].
  exists r, s. split; [exact Hrun|]. split; [|exact Hclose].
  apply (Hin (EvProcessItem TYPE_NOTE (sampleItem "n2" "Second" "r1" false)
                            (Threw "cannot write n2"))); [|reflexivity].
  vm_compute in Hrun. injection Hrun as _ <-. simpl.
  repeat (try (left; reflexivity); right).
Defined.

(** *** Entries whose item is missing or still encrypted *)

Lemma atBoundary_app l l' : atBoundary l -> atBoundary (l ++ l').
Proof. destruct l as [|[] l]; simpl; tauto. Qed.

Lemma TypeBlock_boundary host t i q tr :
  TypeBlock host t i q tr -> tr = [] \/ atBoundary tr.
Proof.
  induction 1 as [i | i e q tr Hne _ IH | i e q body tr Heq Hbody _ IH];
    [now left | exact IH | right; exact I].
Qed.

Lemma Blocks_boundary host q ts tr :
  Blocks host q ts tr -> tr = [] \/ atBoundary tr.
Proof. destruct 1; [now left | right; exact I]. Qed.

(** Every entry of the type of a block has its own stretch of the block:
    its [EvEntry], its body, and then the next entry or the end. *)
Lemma TypeBlock_entry host t i q tr :
  TypeBlock host t i q tr ->
  forall k e,
    nth_error q k = Some e -> Entry.type e = t ->
    exists before body after,
      tr = before ++ EvEntry (i + k) :: body ++ after
      /\ EntryBody host e body
      /\ (after = [] \/ atBoundary after).
Proof.
  induction 1 as [i | i e0 q tr Hne Hblock IH | i e0 q body tr Heq Hbody Hblock IH];
    intros k e Hnth Hty.
  - destruct k; discriminate.
  - destruct k as [|k]; simpl in Hnth.
    + injection Hnth as ->. now elim Hne.
    + destruct (IH k e Hnth Hty) as [before [body [after [-> [Hb Ha]]]]].
      exists before, body, after.
      replace (i + S k) with (S i + k) by lia. now repeat split.
  - destruct k as [|k]; simpl in Hnth.
    + injection Hnth as ->. exists [], body, tr.
      replace (i + 0) with i by lia.
      repeat split; [assumption|]. now apply TypeBlock_boundary with (1 := Hblock).
    + destruct (IH k e Hnth Hty) as [before [body' [after [-> [Hb Ha]]]]].
      exists (EvEntry i :: body ++ before), body', after.
      replace (i + S k) with (S i + k) by lia.
      repeat split; [same_list | assumption | assumption].
Qed.

Lemma Blocks_entry host q ts tr :
  Blocks host q ts tr ->
  forall k e,
    nth_error q k = Some e -> In (Entry.type e) ts ->
    exists before body after,
      tr = before ++ EvEntry k :: body ++ after
      /\ EntryBody host e body
      /\ (after = [] \/ atBoundary after).
Proof.
  induction 1 as [| t ts block tr Hblock Hblocks IH]; intros k e Hnth Hin.
  - destruct Hin.
  - destruct (ItemType_eqb_spec (Entry.type e) t) as [Heq|Hne].
    + destruct (@TypeBlock_entry host t 0 q block Hblock k e Hnth Heq)
        as [before [body [after [-> [Hb Ha]]]]].
      exists (EvPrepare t q Returned :: before), body, (after ++ tr).
      split; [same_list|]. split; [assumption|].
      destruct Ha as [-> | Ha].
      * simpl. now apply Blocks_boundary with (1 := Hblocks).
      * right. now apply atBoundary_app.
    + destruct Hin as [Hin|Hin]; [now elim Hne|].
      destruct (IH k e Hnth Hin) as [before [body [after [-> [Hb Ha]]]]].
      exists (EvPrepare t q Returned :: block ++ before), body, after.
      split; [same_list|]. now split.
Qed.

Lemma typeOrder_complete t : In t typeOrder.
Proof. destruct t; simpl; auto 6. Qed.

(** In a run of [export] that returns, every entry of the queue has its
    stretch of the log, closed by the next entry, the next type or
    [close]. *)
Lemma export_entry host this St (exporter : Exp.t St) st0 options r s q k e :
  export host this exporter st0 options = (Ok r, s) ->
  collect host options = Ok q ->
  nth_error q k = Some e ->
  exists before body after,
    trace s = before ++ EvEntry k :: body ++ after
    /\ EntryBody host e body
    /\ atBoundary after.
Proof.
  intros Hrun Hq Hnth.
  apply export_log in Hrun as [q' [blocks [Hq' [Htr [Hblocks _]]]]].
  assert (q' = q) by congruence. subst q'.
  destruct (@Blocks_entry host q typeOrder blocks Hblocks k e Hnth
              (typeOrder_complete _))
    as [before [body [after [-> [Hb Ha]]]]].
  exists (EvInit (truthyString (Some (Options.path options)))
                 (exportDefaults options) Returned :: before),
         body, (after ++ [EvClose Returned]).
  split; [rewrite Htr; same_list|]. split; [assumption|].
  destruct Ha as [-> | Ha]; [exact I | now apply atBoundary_app].
Qed.





(* ================================================================== *)
(** ** Label entries of the queue *)

(** In every run the queue holds one Label entry and one LabelAssignment
    entry per exported label-assignment, in the order of [NoteTag.all()]:
    the label ids are queued as they were recorded, repetitions included. *)
Lemma collect_label_entries host options q :
  collect host options = Ok q ->
  exists exportedNoteIds,
    filter (hasType TYPE_TAG) q
    = map (entryById TYPE_TAG)
          (map NoteTag.tag_id (exportedNoteTags host exportedNoteIds))
    /\ filter (hasType TYPE_NOTE_TAG) q
       = map (entryById TYPE_NOTE_TAG)
             (map NoteTag.id (exportedNoteTags host exportedNoteIds)).
Proof.
  intros Hq. apply collect_shape in Hq as [c [Hc ->]].
  apply collectFolders_shape in Hc as [notes [_ [_ [_ [C4 _]]]]].
  simpl in C4. exists (exportedNoteIds c).
  rewrite !filter_app, !filter_entryById, !C4 by discriminate.
  split; same_list.
Qed.

(* ================================================================== *)
(** ** Registration and lookups *)

Lemma find_app_found (A : Type) (p : A -> bool) (l l' : list A) (x : A) :
  find p l = Some x -> find p (l ++ l') = Some x.
Proof.
  induction l as [|a l IH]; simpl; [discriminate|].
  destruct (p a); [trivial | exact IH].
Qed.

Lemma find_app_missing (A : Type) (p : A -> bool) (l l' : list A) :
  find p l = None -> find p (l ++ l') = find p l'.
Proof.
  induction l as [|a l IH]; simpl; [reflexivity|].
  destruct (p a); [discriminate | exact IH].
Qed.

Lemma findModuleByFormat_candidates this type format target outputFormat :
  findModuleByFormat_ this type format target outputFormat
  = firstDefaultOrFirst
      (filter (isCandidate type format target outputFormat) (modules this)).
Proof.
  unfold findModuleByFormat_, firstDefaultOrFirst, isCandidate.
  rewrite findModuleByFormat_loop. simpl.
  destruct (find Mod.isDefault _); [reflexivity|].
  now destruct (filter _ _).
Qed.

Lemma modules_registerModule d this module :
  modules (fst (registerModule d this module))
  = modules this ++ [registered d module].
Proof. unfold modules, registerModule. simpl. now rewrite app_assoc. Qed.

Lemma filter_none (A : Type) (p : A -> bool) (l : list A) :
  (forall x, In x l -> p x = false) -> filter p l = [].
Proof.
  induction l as [|a l IH]; intros H; simpl; [reflexivity|].
  rewrite (H a (or_introl eq_refl)). apply IH. intros x Hx. apply H. now right.
Qed.

Lemma firstDefaultOrFirst_found l m :
  firstDefaultOrFirst l = Some m -> In m l.
Proof.
  unfold firstDefaultOrFirst.
  destruct (find Mod.isDefault l) as [x|] eqn:Hf.
  - intros [= <-]. now apply find_some in Hf.
  - destruct l as [|a l]; simpl; [discriminate|]. intros [= <-]. now left.
Qed.



(** A registration leaves alone every lookup for another type or another
    format. *)
Theorem registerModule_other_lookups :
  forall (d : ModuleType -> Mod.t) (this : InteropService)
         (module : Registration) (type : ModuleType) (format : string)
         (target : option FileSystemItem)
         (outputFormat : option ImportModuleOutputFormat),
    (type <> reg_type module \/ format <> Mod.format (registered d module)) ->
    findModuleByFormat_ (fst (registerModule d this module))
                        type format target outputFormat
    = findModuleByFormat_ this type format target outputFormat.
Proof.
  intros d this module type format target outputFormat Hother.
  rewrite !findModuleByFormat_candidates, modules_registerModule, filter_app.
  simpl.
  assert (H : isCandidate type format target outputFormat (registered d module)
              = false).
  { unfold isCandidate, sameTypeAndFormat.
    destruct (String.eqb_spec (Mod.format (registered d module)) format) as [He|_];
      [|reflexivity].
    destruct (ModuleType_eqb_spec (Mod.type (registered d module)) type) as [Ht|_];
      [|reflexivity].
    destruct Hother as [H|H]; elim H; [now rewrite <- Ht | now rewrite He]. }
  rewrite H. now rewrite app_nil_r.
Qed.

(** The lookup of the HTML exporter is the same before and after the
    registration of the "org" importer. *)
Lemma registerModule_other_lookups_witness :
  findModuleByFormat_ (fst (registerModule sampleDefaults sampleService orgRegistration))
                      Exporter "html" (Some File) None
  = Some htmlFileExporter.
Proof.
  rewrite (@registerModule_other_lookups sampleDefaults sampleService
             orgRegistration Exporter "html" (Some File) None).
  - reflexivity.
  - left. discriminate.
Defined.

Lemma firstDefaultOrFirst_default l m :
  firstDefaultOrFirst l = Some m -> Mod.isDefault m = true ->
  find Mod.isDefault l = Some m.
Proof.
  unfold firstDefaultOrFirst. intros H Hm.
  destruct (find Mod.isDefault l) as [x|] eqn:Hf; [exact H|].
  destruct l as [|a l]; simpl in *; [discriminate|].
  injection H as ->. now rewrite Hm in Hf.
Qed.

Lemma firstDefaultOrFirst_first l m :
  firstDefaultOrFirst l = Some m -> Mod.isDefault m = false ->
  find Mod.isDefault l = None /\ exists rest, l = m :: rest.
Proof.
  unfold firstDefaultOrFirst. intros H Hm.
  destruct (find Mod.isDefault l) as [x|] eqn:Hf.
  - injection H as ->. apply find_some in Hf as [_ Hf]. congruence.
  - split; [reflexivity|]. destruct l as [|a l]; simpl in H; [discriminate|].
    injection H as ->. now exists l.
Qed.

(** A registration does not take a lookup away from the module that
    answered it, unless the new module is kept by the lookup, is marked as
    default and the old answer was not: then the new module is the
    answer. *)
Theorem registerModule_precedence :
  forall (d : ModuleType -> Mod.t) (this : InteropService)
         (module : Registration) (type : ModuleType) (format : string)
         (target : option FileSystemItem)
         (outputFormat : option ImportModuleOutputFormat) (m0 : Mod.t),
    findModuleByFormat_ this type format target outputFormat = Some m0 ->
    ((Mod.isDefault m0 = true
      \/ Mod.isDefault (registered d module) = false
      \/ isCandidate type format target outputFormat (registered d module) = false) ->
     findModuleByFormat_ (fst (registerModule d this module))
                         type format target outputFormat = Some m0)
    /\ (Mod.isDefault m0 = false ->
        Mod.isDefault (registered d module) = true ->
        isCandidate type format target outputFormat (registered d module) = true ->
        findModuleByFormat_ (fst (registerModule d this module))
                            type format target outputFormat
        = Some (registered d module)).
Proof.
  intros d this module type format target outputFormat m0.
  rewrite !findModuleByFormat_candidates, modules_registerModule, filter_app.
  set (l := filter (isCandidate type format target outputFormat) (modules this)).
  cbn [filter]. intros Hold. split.
  - intros [Hm0 | [Hnew | Hcand]].
    + apply firstDefaultOrFirst_default in Hold; [|exact Hm0].
      unfold firstDefaultOrFirst. now rewrite (find_app_found _ _ _ Hold).
    + destruct (isCandidate type format target outputFormat (registered d module));
        [|now rewrite app_nil_r].
      destruct (Mod.isDefault m0) eqn:Hm0.
      * apply firstDefaultOrFirst_default in Hold; [|exact Hm0].
        unfold firstDefaultOrFirst. now rewrite (find_app_found _ _ _ Hold).
      * apply firstDefaultOrFirst_first in Hold as [Hf [rest Hl]]; [|exact Hm0].
        unfold firstDefaultOrFirst. rewrite (find_app_missing _ _ _ Hf).
        cbn [find]. rewrite Hnew, Hl. reflexivity.
    + rewrite Hcand. now rewrite app_nil_r.
  - intros Hm0 Hnew Hcand. rewrite Hcand.
    apply firstDefaultOrFirst_first in Hold as [Hf _]; [|exact Hm0].
    unfold firstDefaultOrFirst. rewrite (find_app_missing _ _ _ Hf).
    cbn [find]. now rewrite Hnew.
Qed.

(** On the sample service the default ENEX importer keeps the lookup by
    format when the "org" importer is registered. *)
Lemma registerModule_precedence_witness :
  findModuleByFormat_ (fst (registerModule sampleDefaults sampleService orgRegistration))
                      Importer "enex" None None
  = Some enexToMd.
Proof.
  apply (@registerModule_precedence sampleDefaults sampleService orgRegistration
           Importer "enex" None None enexToMd eq_refl).
  left. reflexivity.
Defined.

Lemma moduleByFileExtension_find this type ext :
  moduleByFileExtension_ this type ext
  = find (fun m => ModuleType_eqb type (Mod.type m)
                   && listsExtension (toLowerCase ext) m) (modules this).
Proof. unfold moduleByFileExtension_. apply moduleByFileExtension_loop_find. Qed.

(** Lookups by file extension go by list order: a registration never
    changes a lookup that had an answer, and gives an answer to a lookup
    that had none exactly when the new module has the type asked for and
    lists the lower-cased extension. *)
Theorem registerModule_extension_precedence :
  forall (d : ModuleType -> Mod.t) (this : InteropService)
         (module : Registration) (type : ModuleType) (ext : string),
    (forall m0,
        moduleByFileExtension_ this type ext = Some m0 ->
        moduleByFileExtension_ (fst (registerModule d this module)) type ext
        = Some m0)
    /\ (moduleByFileExtension_ this type ext = None ->
        moduleByFileExtension_ (fst (registerModule d this module)) type ext
        = if ModuleType_eqb type (reg_type module)
             && listsExtension (toLowerCase ext) (registered d module)
          then Some (registered d module)
          else None).
Proof.
  intros d this module type ext.
  rewrite !moduleByFileExtension_find, modules_registerModule. split.
  - intros m0 H. now apply find_app_found.
  - intros H. rewrite (find_app_missing _ _ _ H). reflexivity.
Qed.

(** The "org" registration also lists "md": on the sample service "MD" still
    finds the Markdown importer, and "org" finds the new module. *)
Lemma registerModule_extension_precedence_witness :
  moduleByFileExtension_ (fst (registerModule sampleDefaults sampleService orgRegistration))
                         Importer "MD" = Some mdImporter
  /\ moduleByFileExtension_ (fst (registerModule sampleDefaults sampleService orgRegistration))
                            Importer "org"
     = Some (registered sampleDefaults orgRegistration).
Proof.
  destruct (registerModule_extension_precedence sampleDefaults sampleService
              orgRegistration Importer "MD") as [H1 _].
  destruct (registerModule_extension_precedence sampleDefaults sampleService
              orgRegistration Importer "org") as [_ H2].
  split; [apply H1; reflexivity | rewrite H2; reflexivity].
Defined.

Lemma registerAll_extension_found d regs :
  forall this type ext m0,
    moduleByFileExtension_ this type ext = Some m0 ->
    moduleByFileExtension_ (registerAll d this regs) type ext = Some m0.
Proof.
  unfold registerAll.
  induction regs as [|module regs IH]; intros this type ext m0 H;
    cbn [fold_left].
  - exact H.
  - apply IH. revert H.
    rewrite !moduleByFileExtension_find, modules_registerModule.
    apply find_app_found.
Qed.

(** Whatever has been registered, and however the request is cased, the
    extension "jex" is answered by the built-in JEX importer and "md",
    "markdown" and "txt" by the built-in Markdown importer, given that the
    defaults of an importer have the type of an importer; "enex" is answered
    by the built-in ENEX-to-Markdown importer, given also that the default
    extensions of an importer do not hold "enex". *)
Theorem builtin_extensions_keep_their_importer :
  forall (d : ModuleType -> Mod.t) (translate : string -> string)
         (modules : list Registration) (ext : string),
    Mod.type (d Importer) = Importer ->
    (toLowerCase ext = "jex" ->
     exists m,
       moduleByFileExtension_ (registerAll d (newService d translate) modules)
                              Importer ext = Some m
       /\ nth_error (importModules d translate) 0 = Some m
       /\ Mod.format m = "jex")
    /\ (In (toLowerCase ext) ["md"; "markdown"; "txt"] ->
        exists m,
          moduleByFileExtension_ (registerAll d (newService d translate) modules)
                                 Importer ext = Some m
          /\ nth_error (importModules d translate) 1 = Some m
          /\ Mod.format m = "md")
    /\ (toLowerCase ext = "enex" ->
        listsExtension "enex" (d Importer) = false ->
        exists m,
          moduleByFileExtension_ (registerAll d (newService d translate) modules)
                                 Importer ext = Some m
          /\ nth_error (importModules d translate) 3 = Some m
          /\ Mod.format m = "enex"
          /\ Mod.isDefault m = true).
Proof.
  intros d translate modules ext Hty.
  assert (Hrun : forall m,
             moduleByFileExtension_ (newService d translate) Importer ext = Some m ->
             moduleByFileExtension_ (registerAll d (newService d translate) modules)
                                    Importer ext = Some m)
    by (intros m; apply registerAll_extension_found).
  split; [|split].
  - intros Hext. eexists. split; [|split; reflexivity].
    apply Hrun. unfold moduleByFileExtension_. rewrite Hext.
    simpl. rewrite Hty. reflexivity.
  - intros Hext. eexists. split; [|split; reflexivity].
    apply Hrun. unfold moduleByFileExtension_.
    simpl in Hext.
    destruct Hext as [<- | [<- | [<- | []]]]; simpl; rewrite Hty; reflexivity.
  - intros Hext Hdefault. eexists. split; [|split; [|split]; reflexivity].
    apply Hrun. unfold moduleByFileExtension_. rewrite Hext.
    simpl. rewrite Hty. simpl.
    unfold listsExtension in Hdefault.
    destruct (Mod.fileExtensions (d Importer)) as [exts|]; simpl;
      [now rewrite Hdefault | reflexivity].
Qed.

(** With the sample defaults and the "org" importer registered, which lists
    "md" too, the request "MD" is answered by the built-in Markdown
    importer. *)
Lemma builtin_extensions_keep_their_importer_witness :
  exists m,
    moduleByFileExtension_
      (registerAll sampleDefaults (newService sampleDefaults (fun s => s))
                   [orgRegistration])
      Importer "MD" = Some m
    /\ Mod.format m = "md".
Proof.
  destruct (@builtin_extensions_keep_their_importer sampleDefaults (fun s => s)
              [orgRegistration] "MD" eq_refl) as [_ [H _]].
  destruct (H (or_introl eq_refl)) as [m [H1 [_ H3]]].
  exists m. now split.
Defined.

(* ================================================================== *)
(** ** Resolution by format and by path *)

Lemma firstDefaultOrFirst_none l : firstDefaultOrFirst l = None <-> l = [].
Proof.
  unfold firstDefaultOrFirst. split.
  - destruct (find Mod.isDefault l); [discriminate|].
    destruct l; [reflexivity | discriminate].
  - intros ->. reflexivity.
Qed.

Lemma findModuleByFormat_found this type format target outputFormat m :
  findModuleByFormat_ this type format target outputFormat = Some m ->
  In m (modules this) /\ isCandidate type format target outputFormat m = true.
Proof.
  rewrite findModuleByFormat_candidates. intros H.
  apply firstDefaultOrFirst_found in H. now apply filter_In in H.
Qed.

Lemma findModuleByFormat_missing this type format target outputFormat :
  findModuleByFormat_ this type format target outputFormat = None <->
  forall m, In m (modules this) ->
            isCandidate type format target outputFormat m = false.
Proof.
  rewrite findModuleByFormat_candidates, firstDefaultOrFirst_none. split.
  - intros H m Hm.
    destruct (isCandidate type format target outputFormat m) eqn:E;
      [|reflexivity].
    assert (Hin : In m (filter (isCandidate type format target outputFormat)
                               (modules this)))
      by (apply filter_In; now split).
    rewrite H in Hin. destruct Hin.
  - apply filter_none.
Qed.




(** [newModuleFromPath_] returns exactly when the options are an object and
    the lookup by type, format and target finds a descriptor, with or
    without an override path.  It then hands that descriptor and the options
    to [setMetadata]; the converter is the wrapper of the descriptor's
    factory when it has one, otherwise the class at the override path when
    one is given and at the computed path when none is.  When nothing is
    found the error is the type error with an override path and the "Cannot
    load" error without; options that are [null] give a type error. *)
Theorem newModuleFromPath_outcomes :
  forall (host : Host) (this : InteropService) (type : ModuleType),
    newModuleFromPath_ host this type None = Err (TypeError "options")
    /\ forall options,
         match findModuleByOptions this type options with
         | Some m =>
           newModuleFromPath_ host this type (Some options)
           = Ok {| construction :=
                     match Mod.instanceFactory m with
                     | Some factory => newModuleFromCustomFactory m factory
                     | None =>
                       FromClass (match truthyString (Options.modulePath options) with
                                  | Some path => path
                                  | None => modulePath host m
                                  end)
                     end;
                   metadata := {| md_options := Some options; md_module := m |} |}
         | None =>
           newModuleFromPath_ host this type (Some options)
           = Err (match truthyString (Options.modulePath options) with
                  | Some _ => TypeError "moduleMetadata"
                  | None => CannotLoadModuleForTarget type (Options.format options)
                                                     (Options.target options)
                  end)
         end.
Proof.
  intros host this type. split; [reflexivity|].
  intros options. unfold newModuleFromPath_.
  destruct (truthyString (Options.modulePath options)) as [path|] eqn:Hpath.
  - rewrite (truthyString_nonEmpty _ Hpath). simpl.
    now destruct (findModuleByOptions this type options).
  - simpl. now destruct (findModuleByOptions this type options).
Qed.

(** On the sample service: with the override path the exporter for "html"
    and directories is built from that path, and nothing is built for the
    format "pdf". *)
Lemma newModuleFromPath_outcomes_witness :
  newModuleFromPath_ sampleHost sampleService Exporter (Some (overrideOptions "html"))
  = Ok {| construction := FromClass "plugins/MyExporter";
          metadata := {| md_options := Some (overrideOptions "html");
                         md_module := htmlDirectoryExporter |} |}
  /\ newModuleFromPath_ sampleHost sampleService Exporter
                        (Some (overrideOptions "pdf"))
     = Err (TypeError "moduleMetadata").
Proof.
  destruct (newModuleFromPath_outcomes sampleHost sampleService Exporter) as [_ H].
  split.
  - exact (H (overrideOptions "html")).
  - exact (H (overrideOptions "pdf")).
Defined.

(* ================================================================== *)
(** ** Collection with filters *)

Lemma extended_filter (f : Id -> list Id) (l : list Id) :
  forall acc, fold_left (fun full id => full ++ f id) l acc = acc ++ flat_map f l.
Proof.
  induction l as [|x l IH]; intros acc; simpl.
  - now rewrite app_nil_r.
  - rewrite IH, <- app_assoc. reflexivity.
Qed.

(** The queue of a run, type by type. *)
Lemma collect_by_type host options q :
  collect host options = Ok q ->
  exists notes,
    map (load host TYPE_NOTE) (selectedNoteIds host options) = map Some notes
    /\ filter (hasType TYPE_FOLDER) q
       = match givenIds (Options.sourceNoteIds options) with
         | [] => map (entryById TYPE_FOLDER) (selectedFolderIds host options)
         | _ :: _ => []
         end
    /\ filter (hasType TYPE_NOTE) q = map noteEntry notes
    /\ filter (hasType TYPE_RESOURCE) q
       = map (entryById TYPE_RESOURCE)
             (ArrayUtils_unique
                (flat_map (fun n => Note_linkedResourceIds host (Item.body n)) notes))
    /\ filter (hasType TYPE_NOTE_TAG) q
       = map (entryById TYPE_NOTE_TAG)
             (map NoteTag.id (exportedNoteTags host (selectedNoteIds host options)))
    /\ filter (hasType TYPE_TAG) q
       = map (entryById TYPE_TAG)
             (map NoteTag.tag_id
                  (exportedNoteTags host (selectedNoteIds host options))).
Proof.
  intros Hq. apply collect_shape in Hq as [c [Hc ->]].
  rewrite extended_filter in Hc.
  change (match Options.sourceFolderIds options with Some l => l | None => [] end)
    with (givenIds (Options.sourceFolderIds options)) in Hc.
  change (match Options.sourceNoteIds options with Some l => l | None => [] end)
    with (givenIds (Options.sourceNoteIds options)) in Hc.
  apply collectFolders_shape in Hc as [notes [C1 [C2 [C3 [C4 [C5 C6]]]]]].
  simpl in C2, C3, C4, C5, C6.
  fold (fullSourceFolderIds host options) in C1, C2, C5.
  fold (selectedFolderIds host options) in C1, C2, C5.
  fold (selectedNoteIds host options) in C1, C5.
  exists notes. rewrite !filter_app, !filter_entryById, C2, C3, C5, C6.
  rewrite !C4 by discriminate.
  split; [exact C1|]. repeat split; same_list.
Qed.

Lemma In_entries_of_type t e q :
  Entry.type e = t -> (In e q <-> In e (filter (hasType t) q)).
Proof.
  intros Ht. rewrite filter_In. unfold hasType. rewrite Ht, ItemType_eqb_refl.
  tauto.
Qed.

Lemma In_entryById t id l : In (entryById t id) (map (entryById t) l) <-> In id l.
Proof.
  rewrite in_map_iff. split.
  - intros [x [Hx Hin]]. now injection Hx as <-.
  - intros H. now exists id.
Qed.

Lemma filteredOut_false l x :
  l <> [] -> (negb (filteredOut l x) = true <-> In x l).
Proof.
  intros Hl. destruct l as [|a l]; [now elim Hl|].
  unfold filteredOut. rewrite negb_involutive. apply includes_In.
Qed.

(** With a folder filter and no note filter, a folder is queued exactly when
    the store's listing of all folders holds it and it is one of the given
    ids or is listed by [Folder.childrenIds] for one of them. *)
Theorem collect_folder_filter :
  forall (host : Host) (options : Options.t) (q : list Entry.t)
         (ids : list Id),
    Options.sourceFolderIds options = Some ids -> ids <> [] ->
    givenIds (Options.sourceNoteIds options) = [] ->
    collect host options = Ok q ->
    forall folderId,
      In (entryById TYPE_FOLDER folderId) q
      <-> In folderId (Folder_childrenIds host EmptyString (Some true))
          /\ (In folderId ids
              \/ exists parent, In parent ids
                                /\ In folderId (Folder_childrenIds host parent None)).
Proof.
  intros host options q ids Hids Hne Hnotes Hq folderId.
  apply collect_by_type in Hq as [notes [_ [HF _]]].
  rewrite Hnotes in HF.
  rewrite (@In_entries_of_type TYPE_FOLDER (entryById TYPE_FOLDER folderId) q
             eq_refl), HF, In_entryById.
  unfold selectedFolderIds. rewrite filter_In.
  assert (Hfull : fullSourceFolderIds host options <> []).
  { unfold fullSourceFolderIds. rewrite Hids. simpl.
    destruct ids; [now elim Hne | discriminate]. }
  rewrite (filteredOut_false _ Hfull).
  unfold fullSourceFolderIds. rewrite Hids. simpl.
  rewrite in_app_iff, in_flat_map. tauto.
Qed.

(** In the nested store, the filter [f1] selects [f1] and its child [f2],
    not [f3]. *)
Lemma collect_folder_filter_witness :
  exists q,
    collect (nestedHost false) (folderFilterOptions ["f1"]) = Ok q
    /\ In (entryById TYPE_FOLDER "f2") q
    /\ ~ In (entryById TYPE_FOLDER "f3") q.
Proof.
  destruct (collect (nestedHost false) (folderFilterOptions ["f1"]))
    as [q|e] eqn:Hq; [|vm_compute in Hq; discriminate].
  exists q. split; [reflexivity|].
  pose proof (@collect_folder_filter (nestedHost false)
                (folderFilterOptions ["f1"]) q ["f1"] eq_refl
                ltac:(discriminate) eq_refl Hq) as H.
  split.
  - apply H. split; [simpl; tauto|]. right. exists "f1". simpl. tauto.
  - intros Hin. apply H in Hin as [_ [Hin | [parent [Hp Hin]]]].
    + simpl in Hin. destruct Hin as [Hin|[]]. discriminate.
    + simpl in Hp. destruct Hp as [<-|[]]. simpl in Hin.
      destruct Hin as [Hin|[]]. discriminate.
Defined.

(** With a note filter, no folder is queued, and the Document entries are
    the notes, loaded, whose ids are in the filter and are listed under a
    selected folder: nothing outside the filter is queued, and every note of
    the filter under a selected folder is. *)
Theorem collect_note_filter :
  forall (host : Host) (options : Options.t) (q : list Entry.t)
         (ids : list Id),
    Options.sourceNoteIds options = Some ids -> ids <> [] ->
    collect host options = Ok q ->
    filter (hasType TYPE_FOLDER) q = []
    /\ (forall e, In e q -> Entry.type e = TYPE_NOTE ->
                  exists noteId note,
                    In noteId ids
                    /\ load host TYPE_NOTE noteId = Some note
                    /\ e = noteEntry note)
    /\ (forall folderId noteId,
           In folderId (selectedFolderIds host options) ->
           In noteId (Folder_noteIds host folderId) ->
           In noteId ids ->
           exists note, load host TYPE_NOTE noteId = Some note
                        /\ In (noteEntry note) q).
Proof.
  intros host options q ids Hids Hne Hq.
  apply collect_by_type in Hq as [notes [HL [HF [HN _]]]].
  rewrite Hids in HF. simpl in HF.
  assert (Hsel : forall n, In n (selectedNoteIds host options) <->
                           exists f, In f (selectedFolderIds host options)
                                     /\ In n (Folder_noteIds host f) /\ In n ids).
  { intros n. unfold selectedNoteIds. rewrite in_flat_map.
    rewrite Hids. simpl. split.
    - intros [f [Hf Hn]]. apply filter_In in Hn as [Hn1 Hn2].
      apply (filteredOut_false _ Hne) in Hn2. now exists f.
    - intros [f [Hf [Hn1 Hn2]]]. exists f. split; [assumption|].
      apply filter_In. split; [assumption|]. now apply filteredOut_false. }
  assert (Hnotes : forall note, In note notes <->
                                exists n, In n (selectedNoteIds host options)
                                          /\ load host TYPE_NOTE n = Some note).
  { intros note. split.
    - intros Hin. apply (in_map Some) in Hin. rewrite <- HL in Hin.
      apply in_map_iff in Hin as [n [Hn Hin]]. now exists n.
    - intros [n [Hn Hl]]. apply (in_map (load host TYPE_NOTE)) in Hn.
      rewrite HL, Hl in Hn. apply in_map_iff in Hn as [x [[= ->] Hx]]. exact Hx. }
  split; [destruct ids; [now elim Hne | exact HF]|].
  split.
  - intros e He Hty.
    apply (@In_entries_of_type TYPE_NOTE e q Hty) in He. rewrite HN in He.
    apply in_map_iff in He as [note [<- Hin]].
    apply Hnotes in Hin as [n [Hn Hl]]. apply Hsel in Hn as [f [_ [_ Hn]]].
    now exists n, note.
  - intros f n Hf Hn Hids'.
    assert (Hin : In n (selectedNoteIds host options))
      by (apply Hsel; now exists f).
    assert (Hl : In (load host TYPE_NOTE n) (map Some notes))
      by (rewrite <- HL; now apply in_map).
    apply in_map_iff in Hl as [note [Hl Hnote]].
    exists note. split; [now symmetry|].
    apply (@In_entries_of_type TYPE_NOTE (noteEntry note) q eq_refl).
    rewrite HN. now apply in_map.
Qed.

(** In the nested store, the note filter [n2; n4] queues no folder and the
    two notes. *)
Lemma collect_note_filter_witness :
  exists q,
    collect (nestedHost false) (noteFilterOptions ["n2"; "n4"]) = Ok q
    /\ filter (hasType TYPE_FOLDER) q = []
    /\ In (noteEntry (sampleItem "n4" "Fourth" "r1" false)) q.
Proof.
  destruct (collect (nestedHost false) (noteFilterOptions ["n2"; "n4"]))
    as [q|e] eqn:Hq; [|vm_compute in Hq; discriminate].
  exists q. split; [reflexivity|].
  destruct (@collect_note_filter (nestedHost false)
              (noteFilterOptions ["n2"; "n4"]) q ["n2"; "n4"] eq_refl
              ltac:(discriminate) Hq) as [H1 [_ H3]].
  split; [exact H1|].
  destruct (H3 "f2" "n4") as [note [Hl Hin]].
  - vm_compute. tauto.
  - vm_compute. tauto.
  - simpl. tauto.
  - vm_compute in Hl. injection Hl as <-. exact Hin.
Defined.

Lemma countEntries_filter t id q :
  countEntries t id q = countEntries t id (filter (hasType t) q).
Proof.
  unfold countEntries, hasType.
  induction q as [|e q IH]; simpl; [reflexivity|].
  destruct (ItemType_eqb (Entry.type e) t) eqn:E; simpl.
  - rewrite E. simpl. destruct (Entry.itemOrId e) as [i|item]; simpl; [|exact IH].
    destruct (String.eqb i id); simpl; now rewrite IH.
  - exact IH.
Qed.

(** Whatever the filters, the queue holds one Attachment entry for an id
    that an exported note links, however many notes link it, and none for
    any other id. *)
Theorem collect_attachments_once :
  forall (host : Host) (options : Options.t) (q : list Entry.t),
    collect host options = Ok q ->
    exists notes,
      filter (hasType TYPE_NOTE) q = map noteEntry notes
      /\ forall rid,
           countEntries TYPE_RESOURCE rid q
           = if includes rid
                  (flat_map (fun n => Note_linkedResourceIds host (Item.body n))
                            notes)
             then 1 else 0.
Proof.
  intros host options q Hq.
  apply collect_by_type in Hq as [notes [_ [_ [HN [HR _]]]]].
  exists notes. split; [exact HN|]. intros rid.
  rewrite countEntries_filter, HR, countEntries_entryById. simpl.
  apply ArrayUtils_unique_occurrences.
Qed.

(** In the nested store with the note filter [n1; n2; n4], the three notes
    link [r1]: it is queued once. *)
Lemma collect_attachments_once_witness :
  exists q,
    collect (nestedHost false) (noteFilterOptions ["n1"; "n2"; "n4"]) = Ok q
    /\ countEntries TYPE_RESOURCE "r1" q = 1.
Proof.
  destruct (collect (nestedHost false) (noteFilterOptions ["n1"; "n2"; "n4"]))
    as [q|e] eqn:Hq; [|vm_compute in Hq; discriminate].
  exists q. split; [reflexivity|].
  destruct (@collect_attachments_once (nestedHost false)
              (noteFilterOptions ["n1"; "n2"; "n4"]) q Hq) as [notes [HN HR]].
  rewrite HR.
  vm_compute in Hq. injection Hq as <-. simpl in HN.
  destruct notes as [|a [|b [|c [|x l]]]]; try discriminate.
  injection HN as <- <- <-. reflexivity.
Defined.

(** The LabelAssignment entries are the label-assignments of the exported
    notes, in the order of [NoteTag.all()], and a label is queued exactly
    when one of those label-assignments refers to it: the label-assignments
    and labels of notes that are not exported are left out. *)
Theorem collect_labels_of_exported_notes :
  forall (host : Host) (options : Options.t) (q : list Entry.t),
    collect host options = Ok q ->
    filter (hasType TYPE_NOTE_TAG) q
    = map (entryById TYPE_NOTE_TAG)
          (map NoteTag.id
               (filter (fun noteTag =>
                          includes (NoteTag.note_id noteTag)
                                   (selectedNoteIds host options))
                       (NoteTag_all host)))
    /\ (forall tagId,
           In (entryById TYPE_TAG tagId) q
           <-> exists noteTag,
                 In noteTag (NoteTag_all host)
                 /\ In (NoteTag.note_id noteTag) (selectedNoteIds host options)
                 /\ NoteTag.tag_id noteTag = tagId).
Proof.
  intros host options q Hq.
  apply collect_by_type in Hq as [notes [_ [_ [_ [_ [HA HT]]]]]].
  split; [exact HA|]. intros tagId.
  rewrite (@In_entries_of_type TYPE_TAG (entryById TYPE_TAG tagId) q eq_refl),
    HT, In_entryById, in_map_iff.
  unfold exportedNoteTags. split.
  - intros [nt [Htag Hin]]. apply filter_In in Hin as [Hin Hnote].
    apply includes_In in Hnote. now exists nt.
  - intros [nt [Hin [Hnote Htag]]]. exists nt. split; [exact Htag|].
    apply filter_In. split; [exact Hin|]. now apply includes_In.
Qed.

(** In the nested store with the note filter [n2; n4], only the
    label-assignment [nt2] of [n2] is queued, with its label [t1]. *)
Lemma collect_labels_of_exported_notes_witness :
  exists q,
    collect (nestedHost false) (noteFilterOptions ["n2"; "n4"]) = Ok q
    /\ filter (hasType TYPE_NOTE_TAG) q = [entryById TYPE_NOTE_TAG "nt2"]
    /\ In (entryById TYPE_TAG "t1") q.
Proof.
  destruct (collect (nestedHost false) (noteFilterOptions ["n2"; "n4"]))
    as [q|e] eqn:Hq; [|vm_compute in Hq; discriminate].
  exists q. split; [reflexivity|].
  destruct (@collect_labels_of_exported_notes (nestedHost false)
              (noteFilterOptions ["n2"; "n4"]) q Hq) as [H1 H2].
  split; [rewrite H1; reflexivity|].
  apply H2.
  exists {| NoteTag.id := "nt2"; NoteTag.note_id := "n2"; NoteTag.tag_id := "t1" |}.
  split; [simpl; tauto|]. split; [vm_compute; tauto | reflexivity].
Defined.

(** Only Document entries hold a loaded object; the entries of the other
    four types hold an id, which dispatch loads. *)
Theorem collect_entry_kinds :
  forall (host : Host) (options : Options.t) (q : list Entry.t) (e : Entry.t),
    collect host options = Ok q ->
    In e q ->
    match Entry.itemOrId e with
    | Loaded _ => Entry.type e = TYPE_NOTE
    | ById _ => Entry.type e <> TYPE_NOTE
    end.
Proof.
  intros host options q e Hq He.
  apply collect_by_type in Hq as [notes [_ [HF [HN [HR [HA HT]]]]]].
  destruct (Entry.type e) eqn:Hty;
    apply (@In_entries_of_type _ e q Hty) in He.
  - rewrite HF in He.
    destruct (givenIds (Options.sourceNoteIds options)); [|destruct He].
    apply in_map_iff in He as [x [<- _]]. simpl in *. discriminate.
  - rewrite HR in He. apply in_map_iff in He as [x [<- _]]. simpl. discriminate.
  - rewrite HN in He. apply in_map_iff in He as [x [<- _]]. reflexivity.
  - rewrite HT in He. apply in_map_iff in He as [x [<- _]]. simpl. discriminate.
  - rewrite HA in He. apply in_map_iff in He as [x [<- _]]. simpl. discriminate.
Qed.

(** In the sample store the entry of the folder [f1] holds its id. *)
Lemma collect_entry_kinds_witness :
  Entry.type (entryById TYPE_FOLDER "f1") <> TYPE_NOTE.
Proof.
  apply (@collect_entry_kinds sampleHost exportAllOptions _
           (entryById TYPE_FOLDER "f1") eq_refl).
  simpl. tauto.
Defined.

(* ================================================================== *)
(** ** Errors that end an export *)

Lemma collectNotes_outcome host sourceNoteIds noteIds :
  forall c,
    match collectNotes host sourceNoteIds noteIds c with
    | Ok _ =>
      forall n, In n noteIds -> filteredOut sourceNoteIds n = false ->
                load host TYPE_NOTE n <> None
    | Err e =>
      e = TypeError "note"
      /\ exists n, In n noteIds /\ filteredOut sourceNoteIds n = false
                   /\ load host TYPE_NOTE n = None
    end.
Proof.
  induction noteIds as [|noteId rest IH]; intros c; simpl.
  - intros n [].
  - destruct (filteredOut sourceNoteIds noteId) eqn:Hout.
    + specialize (IH c).
      destruct (collectNotes host sourceNoteIds rest c).
      * intros n [<-|Hn] Hf; [congruence | now apply IH].
      * destruct IH as [-> [n [Hn H]]]. split; [reflexivity|].
        exists n. split; [now right | exact H].
    + destruct (load host TYPE_NOTE noteId) as [note|] eqn:Hload.
      * match goal with
        | |- context [collectNotes host sourceNoteIds rest ?c1] =>
          specialize (IH c1); destruct (collectNotes host sourceNoteIds rest c1)
        end.
        -- intros n [<-|Hn] Hf; [congruence | now apply IH].
        -- destruct IH as [-> [n [Hn H]]]. split; [reflexivity|].
           exists n. split; [now right | exact H].
      * split; [reflexivity|]. exists noteId. split; [now left | now split].
Qed.

Lemma collectFolders_outcome host sourceFolderIds sourceNoteIds folderIds :
  forall c,
    let selected :=
      flat_map (fun f => filter (fun n => negb (filteredOut sourceNoteIds n))
                                (Folder_noteIds host f))
               (filter (fun f => negb (filteredOut sourceFolderIds f)) folderIds) in
    match collectFolders host sourceFolderIds sourceNoteIds folderIds c with
    | Ok _ => forall n, In n selected -> load host TYPE_NOTE n <> None
    | Err e =>
      e = TypeError "note"
      /\ exists n, In n selected /\ load host TYPE_NOTE n = None
    end.
Proof.
  induction folderIds as [|folderId rest IH]; intros c; simpl.
  - intros n [].
  - destruct (filteredOut sourceFolderIds folderId) eqn:Hout; simpl.
    + apply IH.
    + match goal with
      | |- context [collectNotes host sourceNoteIds ?ids ?c1] =>
        pose proof (collectNotes_outcome host sourceNoteIds ids c1) as Hnotes;
          destruct (collectNotes host sourceNoteIds ids c1) as [c2|e]
      end.
      * specialize (IH c2). simpl in IH.
        destruct (collectFolders host sourceFolderIds sourceNoteIds rest c2).
        -- intros n Hn. apply in_app_or in Hn as [Hn|Hn]; [|now apply IH].
           apply filter_In in Hn as [Hn Hf].
           apply Hnotes; [exact Hn|]. now apply negb_true_iff in Hf.
        -- destruct IH as [-> [n [Hn H]]]. split; [reflexivity|].
           exists n. split; [apply in_or_app; now right | exact H].
      * destruct Hnotes as [-> [n [Hn [Hf H]]]]. split; [reflexivity|].
        exists n. split; [|exact H].
        apply in_or_app. left. apply filter_In. split; [exact Hn|].
        now rewrite Hf.
Qed.

(** What collection ends with. *)
Lemma collect_outcome :
  forall (host : Host) (options : Options.t),
    (collect host options = Err (TypeError "note")
     <-> exists noteId, In noteId (selectedNoteIds host options)
                        /\ load host TYPE_NOTE noteId = None)
    /\ (forall e, collect host options = Err e -> e = TypeError "note")
    /\ ((exists q, collect host options = Ok q)
        <-> forall noteId, In noteId (selectedNoteIds host options) ->
                           load host TYPE_NOTE noteId <> None).
Proof.
  intros host options.
  pose proof (collectFolders_outcome host (fullSourceFolderIds host options)
                (givenIds (Options.sourceNoteIds options))
                (Folder_childrenIds host EmptyString (Some true))
                {| itemsToExport := []; exportedNoteIds := []; resourceIds := [] |})
    as H.
  simpl in H.
  fold (selectedFolderIds host options) in H.
  fold (selectedNoteIds host options) in H.
  unfold collect. rewrite extended_filter.
  change (match Options.sourceFolderIds options with Some l => l | None => [] end)
    with (givenIds (Options.sourceFolderIds options)).
  change (match Options.sourceNoteIds options with Some l => l | None => [] end)
    with (givenIds (Options.sourceNoteIds options)).
  fold (fullSourceFolderIds host options).
  destruct (collectFolders host (fullSourceFolderIds host options) _ _ _) as [c|e].
  - destruct (collectNoteTags _ _ _ _) as [queue tagIds].
    split; [|split].
    + split; [discriminate|]. intros [n [Hn Hl]]. now elim (H n Hn).
    + discriminate.
    + split; [intros _; exact H | intros _; eexists; reflexivity].
  - destruct H as [-> [n [Hn Hl]]]. split; [|split].
    + split; [intros _; now exists n | reflexivity].
    + now intros e [= <-].
    + split; [intros [q Hq]; discriminate | intros Hall; now elim (Hall n Hn)].
Qed.

(** Collection fails exactly when one of the notes it selects does not
    load: the read of the body of the missing note is a type error, and it
    is the only error collection can end with. *)
Theorem collect_fails_on_missing_note :
  forall (host : Host) (options : Options.t),
    (collect host options = Err (TypeError "note")
     <-> exists noteId, In noteId (selectedNoteIds host options)
                        /\ load host TYPE_NOTE noteId = None)
    /\ (forall e, collect host options = Err e -> e = TypeError "note")
    /\ ((exists q, collect host options = Ok q)
        <-> forall noteId, In noteId (selectedNoteIds host options) ->
                           load host TYPE_NOTE noteId <> None).
Proof. exact collect_outcome. Qed.

(** In the nested store with the note [n9] under [f1], which does not load,
    collection fails. *)
Lemma collect_fails_on_missing_note_witness :
  collect (nestedHost true) exportAllOptions = Err (TypeError "note").
Proof.
  apply (collect_fails_on_missing_note (nestedHost true) exportAllOptions).
  exists "n9". split; [vm_compute; tauto | reflexivity].
Defined.

Lemma export_phases host this St (exporter : Exp.t St) st0 options :
  export host this exporter st0 options
  = match collect host options with
    | Err e => (Err e, initialState st0)
    | Ok q =>
      match newModuleFromPath_ host this Exporter (Some (exportDefaults options)) with
      | Err e => (Err e, initialState st0)
      | Ok _ => exportCalls host exporter options q (initialState st0)
      end
    end.
Proof.
  unfold export, exportM, exportCalls. unfold bind at 1, lift at 1.
  change (collect host (exportDefaults options)) with (collect host options).
  destruct (collect host options) as [q|e]; [|reflexivity].
  unfold bind at 1, lift at 1.
  destruct (newModuleFromPath_ host this Exporter _) as [inst|e]; reflexivity.
Qed.

(** The outer loop only adds to the log, never a call of [close]; it ends
    with an error only by a throw of [prepareForProcessingItemType], which
    is then the last call of the log. *)
Lemma forEachType_outcome host St (exporter : Exp.t St) q ts :
  forall s : RunState St,
    exists r s' tr,
      forEachType host exporter ts q s = (r, s')
      /\ trace s' = trace s ++ tr
      /\ match r with
         | Ok _ => closeCalls tr = 0
         | Err e =>
           exists message before ev,
             e = Thrown message /\ tr = before ++ [ev]
             /\ lifecycleThrow ev = Some message /\ closeCalls before = 0
         end.
Proof.
  induction ts as [|t ts IH]; intros s; simpl.
  - exists (Ok tt), s, []. rewrite app_nil_r. repeat split.
  - run_steps.
    destruct (Exp.prepareForProcessingItemType exporter t q (converter s))
      as [st1 [[]|message]]; simpl.
    + match goal with
      | |- context [forEachEntry host exporter t 0 q ?s1] =>
        destruct (forEachEntry_block host exporter t q 0 s1)
          as [s2 [block [Hrun [Htr [Hblock _]]]]]
      end.
      rewrite Hrun. simpl in Htr.
      destruct (TypeBlock_steps Hblock) as [_ Hcl].
      destruct (IH s2) as [r [s3 [tr [Hrun3 [Htr3 Hr]]]]].
      rewrite Hrun3. exists r, s3, (EvPrepare t q Returned :: block ++ tr).
      split; [reflexivity|].
      split; [rewrite Htr3, Htr; same_list|].
      destruct r as [u|e].
      * simpl. now rewrite closeCalls_app, Hcl, Hr.
      * destruct Hr as [m [before [ev [-> [-> [Hev Hb]]]]]].
        exists m, (EvPrepare t q Returned :: block ++ before), ev.
        split; [reflexivity|]. split; [same_list|]. split; [exact Hev|].
        simpl. now rewrite closeCalls_app, Hcl, Hb.
    + eexists. eexists. exists [EvPrepare t q (Threw message)].
      split; [reflexivity|]. split; [reflexivity|].
      exists message, [], (EvPrepare t q (Threw message)). now repeat split.
Qed.

(** The converter phase always logs at least the call of [init]; when it
    ends with an error, the error is the one thrown by the last call of the
    log, which is [init], [prepareForProcessingItemType] or [close], and
    [close] has not been called before. *)
Lemma exportCalls_outcome host St (exporter : Exp.t St) options q :
  forall s : RunState St,
    exists r s' tr,
      exportCalls host exporter options q s = (r, s')
      /\ trace s' = trace s ++ tr
      /\ tr <> []
      /\ match r with
         | Ok _ => True
         | Err e =>
           exists message before ev,
             e = Thrown message /\ tr = before ++ [ev]
             /\ lifecycleThrow ev = Some message /\ closeCalls before = 0
         end.
Proof.
  intros s. unfold exportCalls. remember typeOrder as ts eqn:Hts.
  remember (truthyString (Some (Options.path options))) as path eqn:Hpath.
  run_steps.
  destruct (Exp.init exporter path (exportDefaults options) (converter s))
    as [st1 [[]|message]]; simpl.
  - match goal with
    | |- context [forEachType host exporter ts q ?s1] =>
      destruct (forEachType_outcome host exporter q ts s1)
        as [r [s2 [tr [Hrun [Htr Hr]]]]]
    end.
    rewrite Hrun. simpl in Htr. destruct r as [u|e].
    + destruct (Exp.close exporter (converter s2)) as [st3 [[]|message]]; simpl.
      * eexists. eexists.
        exists (EvInit path (exportDefaults options) Returned
                       :: tr ++ [EvClose Returned]).
        split; [reflexivity|]. simpl.
        split; [rewrite Htr; same_list|]. split; [discriminate | exact I].
      * eexists. eexists.
        exists (EvInit path (exportDefaults options) Returned
                       :: tr ++ [EvClose (Threw message)]).
        split; [reflexivity|]. simpl.
        split; [rewrite Htr; same_list|]. split; [discriminate|].
        exists message, (EvInit path (exportDefaults options) Returned :: tr),
               (EvClose (Threw message)).
        repeat split. simpl. exact Hr.
    + destruct Hr as [m [before [ev [-> [-> [Hev Hb]]]]]].
      eexists. eexists.
      exists (EvInit path (exportDefaults options) Returned :: before ++ [ev]).
      split; [reflexivity|].
      split; [rewrite Htr; same_list|]. split; [discriminate|].
      exists m, (EvInit path (exportDefaults options) Returned :: before), ev.
      repeat split; assumption.
  - eexists. eexists.
    exists [EvInit path (exportDefaults options) (Threw message)].
    split; [reflexivity|]. split; [reflexivity|]. split; [discriminate|].
    exists message, [], (EvInit path (exportDefaults options) (Threw message)).
    now repeat split.
Qed.

(** A run of [export] that ends with an error either has made no converter
    call, the error being the one of collection or, after it, the one of the
    resolution of the exporter; or its error is the one thrown by the last
    call of its log, which is [init], [prepareForProcessingItemType] or
    [close]: no call follows the throw, so [close] is not called after an
    [init] or a [prepareForProcessingItemType] that throws. *)
Theorem export_fatal_errors :
  forall (host : Host) (this : InteropService) (St : Type)
         (exporter : Exp.t St) (st0 : St) (options : Options.t)
         (e : Error) (s : RunState St),
    export host this exporter st0 options = (Err e, s) ->
    (trace s = []
     /\ (collect host options = Err e
         \/ exists q, collect host options = Ok q
                      /\ newModuleFromPath_ host this Exporter
                                            (Some (exportDefaults options)) = Err e))
    \/ (exists message before ev,
           e = Thrown message
           /\ trace s = before ++ [ev]
           /\ lifecycleThrow ev = Some message
           /\ closeCalls before = 0).
Proof.
  intros host this St exporter st0 options e s. rewrite export_phases.
  destruct (collect host options) as [q|e0] eqn:Hq.
  - destruct (newModuleFromPath_ host this Exporter _) as [inst|e1] eqn:Hinst.
    + destruct (exportCalls_outcome host exporter options q (initialState st0))
        as [r [s' [tr [Hrun [Htr [_ Hr]]]]]].
      rewrite Hrun. intros [= -> ->]. right. simpl in Htr. now rewrite Htr.
    + intros [= <- <-]. left. split; [reflexivity|]. right. now exists q.
  - intros [= <- <-]. left. split; [reflexivity|]. now left.
Qed.

(** With the exporter whose [prepareForProcessingItemType] throws at the
    notes, the run on the sample store ends with that error and without a
    call of [close]. *)
Lemma export_fatal_errors_witness :
  exists s,
    export sampleHost sampleService failingExporter 0 exportAllOptions
    = (Err (Thrown "disk full"), s)
    /\ closeCalls (trace s) = 0.
Proof.
  destruct (export sampleHost sampleService failingExporter 0 exportAllOptions)
    as [[r|e] s] eqn:H; [vm_compute in H; discriminate|].
  destruct (@export_fatal_errors sampleHost sampleService nat failingExporter 0
              exportAllOptions e s H)
    as [[Htr _] | [m [before [ev [He [Htr [Hev Hcl]]]]]]].
  - vm_compute in H. injection H as _ <-. discriminate.
  - exists s. split.
    + vm_compute in H. injection H as <- _. reflexivity.
    + vm_compute in H. injection H as _ <-. reflexivity.
Defined.

(** [export] fails before any converter call exactly when one of the notes
    it selects does not load or no exporter is resolved for the options (the
    format being "jex" when none is given); when a note does not load the
    error is the type error of collection, whatever the resolution would
    give. *)
Theorem export_fails_before_converter :
  forall (host : Host) (this : InteropService) (St : Type)
         (exporter : Exp.t St) (st0 : St) (options : Options.t),
    (failedBeforeConverter (export host this exporter st0 options)
     <-> (exists noteId, In noteId (selectedNoteIds host options)
                         /\ load host TYPE_NOTE noteId = None)
         \/ (exists e, newModuleFromPath_ host this Exporter
                                          (Some (exportDefaults options)) = Err e))
    /\ ((exists noteId, In noteId (selectedNoteIds host options)
                        /\ load host TYPE_NOTE noteId = None) ->
        export host this exporter st0 options
        = (Err (TypeError "note"), initialState st0)).
Proof.
  intros host this St exporter st0 options.
  destruct (collect_outcome host options) as [Hcol [Herr Hok]].
  rewrite export_phases. unfold failedBeforeConverter.
  destruct (collect host options) as [q|e0] eqn:Hq.
  - assert (Hall : forall n, In n (selectedNoteIds host options) ->
                             load host TYPE_NOTE n <> None)
      by (apply Hok; now exists q).
    split.
    + destruct (newModuleFromPath_ host this Exporter _) as [inst|e1] eqn:Hinst.
      * destruct (exportCalls_outcome host exporter options q (initialState st0))
          as [r [s' [tr [Hrun [Htr [Hne _]]]]]].
        rewrite Hrun. simpl in *. split.
        -- intros [_ H]. rewrite Htr in H. now elim Hne.
        -- intros [[n [Hn Hl]] | [e He]]; [now elim (Hall n Hn) | discriminate].
      * simpl. split; [intros _; right; now exists e1|].
        intros _. split; [now exists e1 | reflexivity].
    + intros [n [Hn Hl]]. now elim (Hall n Hn).
  - rewrite (Herr e0 eq_refl) in *. simpl. split.
    + split.
      * intros _. left. now apply Hcol.
      * intros _. split; [eexists|]; reflexivity.
    + reflexivity.
Qed.

(** In the nested store with the note [n9], which does not load, the run
    fails before any converter call. *)
Lemma export_fails_before_converter_witness :
  export (nestedHost true) sampleService countingExporter 0 exportAllOptions
  = (Err (TypeError "note"), initialState 0).
Proof.
  apply (export_fails_before_converter (nestedHost true) sampleService
           countingExporter 0 exportAllOptions).
  exists "n9". split; [vm_compute; tauto | reflexivity].
Defined.

(* ================================================================== *)
(** ** Warnings of a run *)

Lemma processedItems_app l1 l2 :
  processedItems (l1 ++ l2) = processedItems l1 + processedItems l2.
Proof.
  induction l1 as [|ev l1 IH]; simpl; [reflexivity|].
  destruct ev; simpl; try exact IH. destruct o as [[]|m]; simpl; now rewrite ?IH.
Qed.

Lemma itemCalls_pushed host t item c o1 o2 o3 :
  List.length (pushed (itemCalls host t item c o1 o2 o3))
  + processedItems (itemCalls host t item c o1 o2 o3) = 1
  /\ (pushed (itemCalls host t item c o1 o2 o3) = [] ->
      itemCalls host t item c o1 o2 o3
      = itemCalls host t item c Returned Returned Returned).
Proof.
  unfold itemCalls.
  destruct (ItemType_eqb t TYPE_RESOURCE), o1 as [[]|m1], o2 as [[]|m2],
    o3 as [[]|m3]; simpl; split; try reflexivity; discriminate.
Qed.

Lemma EntryBody_pushed host e body :
  EntryBody host e body ->
  List.length (pushed body) + processedItems body = 1.
Proof.
  intros [id Hid Hload | item Hres Henc | item c o1 o2 o3 Hres Henc];
    simpl; try reflexivity. apply itemCalls_pushed.
Qed.

Lemma TypeBlock_pushed host t i q tr :
  TypeBlock host t i q tr ->
  List.length (pushed tr) + processedItems tr
  = List.length (positionsFrom i t q).
Proof.
  induction 1 as [i | i e q tr Hne _ IH | i e q body tr Heq Hbody _ IH]; simpl.
  - reflexivity.
  - destruct (ItemType_eqb_spec (Entry.type e) t) as [Heq|_]; [now elim Hne|].
    exact IH.
  - destruct (ItemType_eqb_spec (Entry.type e) t) as [_|Hne]; [|now elim Hne].
    rewrite pushed_app, processedItems_app, length_app. simpl.
    pose proof (EntryBody_pushed Hbody). lia.
Qed.

Lemma Blocks_pushed host q ts tr :
  Blocks host q ts tr ->
  List.length (pushed tr) + processedItems tr
  = List.length (flat_map (fun t => positionsOf t q) ts).
Proof.
  induction 1 as [| t ts block tr Hblock _ IH]; simpl; [reflexivity|].
  rewrite pushed_app, processedItems_app, !length_app.
  pose proof (TypeBlock_pushed Hblock). unfold positionsOf in *. lia.
Qed.

(** Every entry of the queue is of one of the five types of dispatch. *)
Lemma positions_cover q :
  forall i,
    List.length (positionsFrom i TYPE_FOLDER q)
    + List.length (positionsFrom i TYPE_RESOURCE q)
    + List.length (positionsFrom i TYPE_NOTE q)
    + List.length (positionsFrom i TYPE_TAG q)
    + List.length (positionsFrom i TYPE_NOTE_TAG q)
    = List.length q.
Proof.
  induction q as [|e q IH]; intros i; simpl; [reflexivity|].
  specialize (IH (S i)). destruct (Entry.type e); simpl; lia.
Qed.

(** A run of [export] that returns accounts for every entry of the queue
    once: the entry has either one warning in the result or a call of
    [processItem] that returned, never both and never neither. *)
Theorem export_accounts_for_every_entry :
  forall (host : Host) (this : InteropService) (St : Type)
         (exporter : Exp.t St) (st0 : St) (options : Options.t)
         (r : ImportExportResult) (s : RunState St),
    export host this exporter st0 options = (Ok r, s) ->
    exists q,
      collect host options = Ok q
      /\ List.length (warnings r) + processedItems (trace s) = List.length q.
Proof.
  intros host this St exporter st0 options r s Hrun.
  apply export_log in Hrun as [q [blocks [Hq [Htr [Hblocks Hw]]]]].
  exists q. split; [exact Hq|].
  rewrite Hw, Htr. simpl. rewrite pushed_app, processedItems_app. simpl.
  rewrite app_nil_r.
  pose proof (Blocks_pushed Hblocks) as H. simpl in H.
  rewrite !length_app in H. simpl in H.
  pose proof (positions_cover q 0). unfold positionsOf in H. lia.
Qed.

(** The run on the sample store has three warnings and seven calls of
    [processItem] that returned, for ten entries. *)
Lemma export_accounts_for_every_entry_witness :
  exists r s,
    export sampleHost sampleService countingExporter 0 exportAllOptions = (Ok r, s)
    /\ List.length (warnings r) = 3
    /\ processedItems (trace s) = 7.
Proof.
  destruct (export sampleHost sampleService countingExporter 0 exportAllOptions)
    as [[r|e] s] eqn:H; [|vm_compute in H; discriminate].
  destruct (@export_accounts_for_every_entry sampleHost sampleService nat
              countingExporter 0 exportAllOptions r s H) as [q [Hq Hsum]].
  assert (Hw : List.length (warnings r) = 3).
  { pose proof H as H'. vm_compute in H'. now injection H' as <- _. }
  assert (Hlen : List.length q = 10).
  { pose proof Hq as Hq'. vm_compute in Hq'. now injection Hq' as <-. }
  exists r, s. split; [reflexivity|]. split; [exact Hw|]. lia.
Defined.

(** A run of [export] that returns without a warning has processed every
    entry of the queue: its item was there and not encrypted, and all the
    converter calls for it were made and returned ([updateContext] and
    [processResource] for an Attachment, then [processItem]). *)
Theorem export_without_warnings :
  forall (host : Host) (this : InteropService) (St : Type)
         (exporter : Exp.t St) (st0 : St) (options : Options.t)
         (r : ImportExportResult) (s : RunState St),
    export host this exporter st0 options = (Ok r, s) ->
    warnings r = [] ->
    exists q,
      collect host options = Ok q
      /\ forall i e,
           nth_error q i = Some e ->
           exists item c before after,
             resolved host e = Some item
             /\ stillEncrypted item = false
             /\ trace s = before ++ EvEntry i
                                 :: itemCalls host (Entry.type e) item c
                                              Returned Returned Returned
                                 ++ after.
Proof.
  intros host this St exporter st0 options r s Hrun Hnone.
  destruct (export_log _ _ _ _ _ Hrun) as [q [blocks [Hq [_ [_ Hw]]]]].
  exists q. split; [exact Hq|]. intros i e Hnth.
  destruct (@export_entry host this St exporter st0 options r s q _ _ Hrun Hq Hnth)
    as [before [body [after [Hs [Hbody _]]]]].
  assert (Hpushed : pushed body = []).
  { rewrite Hnone, Hs in Hw.
    change (before ++ EvEntry i :: body ++ after)
      with (before ++ [EvEntry i] ++ body ++ after) in Hw.
    rewrite !pushed_app in Hw. simpl in Hw.
    symmetry in Hw. apply app_eq_nil in Hw as [_ Hw].
    now apply app_eq_nil in Hw as [Hw _]. }
  destruct Hbody as [id Hid Hload | item Hres Henc | item c o1 o2 o3 Hres Henc];
    try discriminate.
  exists item, c, before, after. split; [exact Hres|]. split; [exact Henc|].
  rewrite Hs. now rewrite (proj2 (itemCalls_pushed host _ item c o1 o2 o3) Hpushed).
Qed.

(** In the nested store the export of the note [n4] alone has no warning:
    its two entries, the note and the resource [r1], have their calls. *)
Lemma export_without_warnings_witness :
  exists r s q,
    export (nestedHost false) sampleService countingExporter 0
           (noteFilterOptions ["n4"]) = (Ok r, s)
    /\ warnings r = []
    /\ collect (nestedHost false) (noteFilterOptions ["n4"]) = Ok q
    /\ exists item c before after,
         trace s = before ++ EvEntry 1
                          :: itemCalls (nestedHost false) TYPE_RESOURCE item c
                                       Returned Returned Returned
                          ++ after.
Proof.
  destruct (export (nestedHost false) sampleService countingExporter 0
                   (noteFilterOptions ["n4"])) as [[r|e] s] eqn:H;
    [|vm_compute in H; discriminate].
  assert (Hw : warnings r = []).
  { pose proof H as H'. vm_compute in H'. now injection H' as <- _. }
  destruct (@export_without_warnings (nestedHost false) sampleService nat
              countingExporter 0 (noteFilterOptions ["n4"]) r s H Hw)
    as [q [Hq Hall]].
  exists r, s, q. split; [reflexivity|]. split; [exact Hw|]. split; [exact Hq|].
  assert (Hnth : nth_error q 1 = Some (entryById TYPE_RESOURCE "r1")).
  { pose proof Hq as Hq'. vm_compute in Hq'. now injection Hq' as <-. }
  destruct (Hall 1 _ Hnth) as [item [c [before [after [_ [_ Hs]]]]]].
  now exists item, c, before, after.
Defined.

(* ================================================================== *)
(** ** The shared context *)

Lemma getProperty_setProperty id path o :
  getProperty id (setProperty id path o) = Some path.
Proof.
  induction o as [|[k v] o IH]; simpl.
  - now rewrite String.eqb_refl.
  - destruct (String.eqb k id) eqn:E; simpl; rewrite E; [reflexivity | exact IH].
Qed.

Lemma getProperty_setProperty_other id id' path o :
  id' <> id -> getProperty id' (setProperty id path o) = getProperty id' o.
Proof.
  intros Hne. induction o as [|[k v] o IH]; simpl.
  - destruct (String.eqb_spec id id') as [->|_]; [now elim Hne | reflexivity].
  - destruct (String.eqb_spec k id) as [->|Hk]; simpl.
    + destruct (String.eqb_spec id id') as [->|_]; [now elim Hne | reflexivity].
    + now rewrite IH.
Qed.

Lemma Announced_weaken host previous tr :
  Announced host None tr -> Announced host previous tr.
Proof.
  destruct tr as [|ev tr]; [trivial|].
  destruct ev; simpl; trivial. now intros [[] _].
Qed.

Lemma Announced_app host l1 :
  forall previous l2,
    Announced host previous l1 -> Announced host None l2 ->
    Announced host previous (l1 ++ l2).
Proof.
  induction l1 as [|ev l1 IH]; intros previous l2 H1 H2; simpl.
  - now apply Announced_weaken.
  - destruct ev; simpl in *; try (now apply IH).
    + destruct o as [[]|m]; now apply IH.
    + destruct H1 as [H H1]. split; [exact H | now apply IH].
Qed.

Lemma Announced_split host tr :
  forall previous,
    Announced host previous tr ->
    forall before item path o after,
      tr = before ++ EvProcessResource item path o :: after ->
      path = Resource_fullPath host item
      /\ exists c,
           match before with
           | [] => previous = Some c
           | _ :: _ => exists before', before = before' ++ [EvUpdateContext c Returned]
           end
           /\ getProperty (Item.id item) (resourcePaths c) = Some path.
Proof.
  induction tr as [|ev tr IH]; intros previous H before item path o after Heq.
  - destruct before; discriminate.
  - destruct before as [|b before]; simpl in Heq; injection Heq as -> ->.
    + simpl in H. destruct H as [H _].
      destruct previous as [c|]; [|destruct H].
      destruct H as [H1 H2]. split; [exact H2|]. now exists c.
    + assert (Hnext : exists p, Announced host p (before ++ EvProcessResource item path o :: after)
                                /\ (forall c, p = Some c -> b = EvUpdateContext c Returned)).
      { destruct b; simpl in H;
          try (exists None; split; [exact H | discriminate]).
        - destruct o0 as [[]|m].
          + exists (Some context0). split; [exact H|]. now intros c [= <-].
          + exists None. split; [exact H | discriminate].
        - exists None. split; [now destruct H | discriminate]. }
      destruct Hnext as [p [Hp Hb]].
      destruct (IH p Hp before item path o after eq_refl) as [Hpath [c [Hc Hget]]].
      split; [exact Hpath|]. exists c. split; [|exact Hget].
      destruct before as [|b' before].
      * exists []. simpl. now rewrite (Hb c Hc).
      * destruct Hc as [before' ->]. now exists (b :: before').
Qed.

Ltac announced_calls :=
  eexists; eexists; (split; [reflexivity|]);
  (split; [tidy_log; reflexivity|]);
  simpl; rewrite ?getProperty_setProperty; auto.

(** The log of the body of the dispatch loop keeps [Announced]. *)
Lemma processEntry_announced host St (exporter : Exp.t St) i e (s : RunState St) :
  exists s' tr,
    processEntry host exporter i e s = (Ok tt, s')
    /\ trace s' = trace s ++ tr
    /\ Announced host None tr.
Proof.
  assert (Hitem : forall item,
             exists s' tr,
               (if Item.encryption_applied item || Item.encryption_blob_encrypted item
                then fun s0 : RunState St =>
                       (@Ok Error unit tt,
                        pushWarning (encryptedWarning host (Entry.type e) item) s0)
                else try_catch (dispatchItem host exporter (Entry.type e) item)
                               (fun message s0 => (Ok tt, pushWarning message s0)))
                 (logEvent (EvEntry i) s) = (Ok tt, s')
               /\ trace s' = trace s ++ tr
               /\ Announced host None tr).
  { intros item.
    destruct (Item.encryption_applied item || Item.encryption_blob_encrypted item).
    - announced_calls.
    - unfold dispatchItem. run_steps.
      destruct (ItemType_eqb (Entry.type e) TYPE_RESOURCE); simpl.
      + destruct (Exp.updateContext exporter _ (converter s)) as [st1 [[]|m1]];
          simpl; [|announced_calls].
        destruct (Exp.processResource exporter item _ st1) as [st2 [[]|m2]];
          simpl; [|announced_calls].
        destruct (Exp.processItem exporter (Entry.type e) item st2)
          as [st3 [[]|m3]]; simpl; announced_calls.
      + destruct (Exp.processItem exporter (Entry.type e) item (converter s))
          as [st3 [[]|m3]]; simpl; announced_calls. }
  unfold processEntry. unfold bind at 1.
  destruct (Entry.itemOrId e) as [id|item].
  - destruct (load host (Entry.type e) id) as [item|]; [apply Hitem|].
    announced_calls.
  - apply Hitem.
Qed.

Lemma forEachEntry_announced host St (exporter : Exp.t St) t q :
  forall i (s : RunState St),
    exists s' tr,
      forEachEntry host exporter t i q s = (Ok tt, s')
      /\ trace s' = trace s ++ tr
      /\ Announced host None tr.
Proof.
  induction q as [|e q IH]; intros i s; simpl.
  - exists s, []. rewrite app_nil_r. repeat split.
  - unfold bind.
    destruct (negb (ItemType_eqb (Entry.type e) t)).
    + unfold ret. apply IH.
    + destruct (processEntry_announced host exporter i e s)
        as [s1 [tr1 [Hrun [Htr H1]]]].
      rewrite Hrun.
      destruct (IH (S i) s1) as [s2 [tr2 [Hrun2 [Htr2 H2]]]].
      exists s2, (tr1 ++ tr2). split; [exact Hrun2|].
      split; [rewrite Htr2, Htr; now rewrite app_assoc|].
      now apply Announced_app.
Qed.

Lemma forEachType_announced host St (exporter : Exp.t St) q ts :
  forall s : RunState St,
    exists tr,
      trace (snd (forEachType host exporter ts q s)) = trace s ++ tr
      /\ Announced host None tr.
Proof.
  induction ts as [|t ts IH]; intros s; simpl.
  - exists []. rewrite app_nil_r. now split.
  - run_steps.
    destruct (Exp.prepareForProcessingItemType exporter t q (converter s))
      as [st1 [[]|message]]; simpl.
    + match goal with
      | |- context [forEachEntry host exporter t 0 q ?s1] =>
        destruct (forEachEntry_announced host exporter t q 0 s1)
          as [s2 [tr1 [Hrun [Htr H1]]]]
      end.
      rewrite Hrun. simpl in Htr.
      destruct (IH s2) as [tr2 [Htr2 H2]].
      exists (EvPrepare t q Returned :: tr1 ++ tr2).
      split; [rewrite Htr2, Htr; same_list|].
      simpl. now apply Announced_app.
    + exists [EvPrepare t q (Threw message)]. now split.
Qed.

Lemma exportCalls_announced host St (exporter : Exp.t St) options q :
  forall s : RunState St,
    exists tr,
      trace (snd (exportCalls host exporter options q s)) = trace s ++ tr
      /\ Announced host None tr.
Proof.
  intros s. unfold exportCalls. remember typeOrder as ts eqn:Hts.
  remember (truthyString (Some (Options.path options))) as path eqn:Hpath.
  run_steps.
  destruct (Exp.init exporter path (exportDefaults options) (converter s))
    as [st1 [[]|message]]; simpl.
  - match goal with
    | |- context [forEachType host exporter ts q ?s1] =>
      destruct (forEachType_announced host exporter q ts s1) as [tr [Htr H]];
        destruct (forEachType host exporter ts q s1) as [[u|e] s2]
    end; simpl in Htr.
    + destruct (Exp.close exporter (converter s2)) as [st3 [[]|message]]; simpl.
      * exists (EvInit path (exportDefaults options) Returned
                       :: tr ++ [EvClose Returned]).
        split; [rewrite Htr; same_list|]. simpl.
        apply Announced_app; [exact H | simpl; exact I].
      * exists (EvInit path (exportDefaults options) Returned
                       :: tr ++ [EvClose (Threw message)]).
        split; [rewrite Htr; same_list|]. simpl.
        apply Announced_app; [exact H | simpl; exact I].
    + exists (EvInit path (exportDefaults options) Returned :: tr).
      split; [simpl; rewrite Htr; same_list|]. exact H.
  - exists [EvInit path (exportDefaults options) (Threw message)].
    split; [reflexivity|]. simpl. exact I.
Qed.

(** In every run of [export], whether it returns or not, a call of
    [processResource] directly follows a call of [updateContext] that
    returned; the context given to that call maps the id of the resource to
    the path given to [processResource], which is the full path of the
    resource. *)
Theorem export_announces_resource_paths :
  forall (host : Host) (this : InteropService) (St : Type)
         (exporter : Exp.t St) (st0 : St) (options : Options.t)
         (before after : list Event) (item : Item.t) (path : string)
         (o : Outcome),
    trace (snd (export host this exporter st0 options))
    = before ++ EvProcessResource item path o :: after ->
    path = Resource_fullPath host item
    /\ exists before' c,
         before = before' ++ [EvUpdateContext c Returned]
         /\ getProperty (Item.id item) (resourcePaths c) = Some path.
Proof.
  intros host this St exporter st0 options before after item path o.
  rewrite export_phases.
  destruct (collect host options) as [q|e];
    [|simpl; intros H; destruct before; discriminate].
  destruct (newModuleFromPath_ host this Exporter _) as [inst|e];
    [|simpl; intros H; destruct before; discriminate].
  destruct (exportCalls_announced host exporter options q (initialState st0))
    as [tr [Htr H]].
  rewrite Htr. simpl. intros Heq.
  destruct (@Announced_split host tr None H before item path o after Heq)
    as [Hpath [c [Hc Hget]]].
  split; [exact Hpath|].
  destruct before as [|b before]; [discriminate|].
  destruct Hc as [before' ->]. now exists before', c.
Qed.

(** In the run on the sample store the resource [r1] is handed to
    [processResource] with the path that the context holds for it. *)
Lemma export_announces_resource_paths_witness :
  exists before' c,
    getProperty "r1" (resourcePaths c) = Some "/resources/r1"
    /\ exists after,
         trace (snd (export sampleHost sampleService countingExporter 0
                            exportAllOptions))
         = (before' ++ [EvUpdateContext c Returned])
           ++ EvProcessResource (sampleItem "r1" "Picture" EmptyString false)
                                "/resources/r1" Returned :: after.
Proof.
  assert (H : exists before after,
             trace (snd (export sampleHost sampleService countingExporter 0
                                exportAllOptions))
             = before ++ EvProcessResource (sampleItem "r1" "Picture" EmptyString false)
                                           "/resources/r1" Returned :: after).
  { vm_compute. eexists [_; _; _; _; _; _; _]. eexists. reflexivity. }
  destruct H as [before [after H]].
  destruct (@export_announces_resource_paths sampleHost sampleService nat
              countingExporter 0 exportAllOptions before after _ _ _ H)
    as [_ [before' [c [Hb Hget]]]].
  exists before', c. split; [exact Hget|]. exists after. rewrite <- Hb. exact H.
Defined.

(* ================================================================== *)
(** ** Import with the format found by the file extension *)




(* ================================================================== *)
(** ** What a lookup by format can return *)

(** [findModuleByFormat_] never returns a module that is not in the list, of
    another type or format, or that the discriminators given do not keep;
    it returns nothing exactly when the list has no module to keep. *)
Theorem findModuleByFormat_sound_and_complete :
  forall (this : InteropService) (type : ModuleType) (format : string)
         (target : option FileSystemItem)
         (outputFormat : option ImportModuleOutputFormat),
    (forall m,
        findModuleByFormat_ this type format target outputFormat = Some m ->
        In m (modules this)
        /\ Mod.type m = type /\ Mod.format m = format
        /\ match target, outputFormat with
           | None, None => True
           | Some t, None => Mod.target m = Some t
           | None, Some o => Mod.outputFormat m = Some o
           | Some t, Some o => Mod.target m = Some t \/ Mod.outputFormat m = Some o
           end)
    /\ (findModuleByFormat_ this type format target outputFormat = None
        <-> forall m, In m (modules this) ->
                      isCandidate type format target outputFormat m = false).
Proof.
  intros this type format target outputFormat.
  split; [|apply findModuleByFormat_missing].
  intros m Hfind. apply findModuleByFormat_found in Hfind as [Hin Hc].
  split; [exact Hin|].
  unfold isCandidate, sameTypeAndFormat in Hc.
  apply andb_prop in Hc as [Hc Hd]. apply andb_prop in Hc as [Hf Ht].
  apply String.eqb_eq in Hf.
  destruct (ModuleType_eqb_spec (Mod.type m) type) as [Hty|]; [|discriminate].
  split; [exact Hty|]. split; [exact Hf|].
  assert (HT : forall t, targetIs t m = true -> Mod.target m = Some t).
  { unfold targetIs. intros t H. destruct (Mod.target m) as [mt|]; [|discriminate].
    now destruct (FileSystemItem_eqb_spec t mt) as [->|]. }
  assert (HO : forall o, outputFormatIs o m = true -> Mod.outputFormat m = Some o).
  { unfold outputFormatIs. intros o H.
    destruct (Mod.outputFormat m) as [mo|]; [|discriminate].
    now destruct (OutputFormat_eqb_spec o mo) as [->|]. }
  destruct target as [t|], outputFormat as [o|]; auto.
  apply orb_prop in Hd as [Hd|Hd]; [left | right]; auto.
Qed.

(** On the sample service the exporter found for "html" and the target
    Directory has that target. *)
Lemma findModuleByFormat_sound_and_complete_witness :
  Mod.target htmlDirectoryExporter = Some Directory.
Proof.
  destruct (findModuleByFormat_sound_and_complete sampleService Exporter "html"
              (Some Directory) None) as [H _].
  destruct (H htmlDirectoryExporter eq_refl) as [_ [_ [_ Ht]]]. exact Ht.
Defined.

Lemma registerAll_default_kept d regs :
  forall this type format target outputFormat m0,
    findModuleByFormat_ this type format target outputFormat = Some m0 ->
    Mod.isDefault m0 = true ->
    findModuleByFormat_ (registerAll d this regs) type format target outputFormat
    = Some m0.
Proof.
  unfold registerAll.
  induction regs as [|module regs IH];
    intros this type format target outputFormat m0 Hfind Hdef; cbn [fold_left].
  - exact Hfind.
  - apply IH; [|exact Hdef]. revert Hfind.
    rewrite !findModuleByFormat_candidates, modules_registerModule, filter_app.
    intros Hfind. apply firstDefaultOrFirst_default in Hfind; [|exact Hdef].
    unfold firstDefaultOrFirst. now rewrite (find_app_found _ _ _ Hfind).
Qed.

(** Whatever has been registered, the lookup of the importer for the format
    "enex", with no discriminator, is answered by the built-in
    ENEX-to-Markdown importer, which is marked as default, given that the
    defaults of an importer have the type of an importer. *)
Theorem builtin_enex_importer_stays_default :
  forall (d : ModuleType -> Mod.t) (translate : string -> string)
         (regs : list Registration),
    Mod.type (d Importer) = Importer ->
    exists m,
      findModuleByFormat_ (registerAll d (newService d translate) regs)
                          Importer "enex" None None = Some m
      /\ nth_error (importModules d translate) 3 = Some m
      /\ Mod.importerClass m = Some "InteropService_Importer_EnexToMd"
      /\ Mod.isDefault m = true.
Proof.
  intros d translate regs Hty.
  eexists. split; [|split; [|split]; reflexivity].
  apply registerAll_default_kept; [|reflexivity].
  rewrite findModuleByFormat_candidates.
  unfold newService, modules, importModules, exportModules, builtin.
  cbn [defaultModules_ userModules_ app filter].
  unfold isCandidate, sameTypeAndFormat, spread, builtinFields, written.
  cbn [Mod.format Mod.type Fields.format]. rewrite Hty.
  simpl. reflexivity.
Qed.

(** With the sample defaults, once an ENEX importer marked as default is
    registered, the built-in one still answers. *)
Lemma builtin_enex_importer_stays_default_witness :
  exists m,
    findModuleByFormat_
      (registerAll sampleDefaults (newService sampleDefaults (fun s => s))
         [ {| reg_type := Importer;
              reg_fields :=
                {| Fields.format := Some "enex";
                   Fields.fileExtensions := Some ["enex"];
                   Fields.sources := None; Fields.target := None;
                   Fields.outputFormat := None; Fields.isDefault := Some true;
                   Fields.importerClass := Some "MyEnex";
                   Fields.instanceFactory := None;
                   Fields.description := None |} |} ])
      Importer "enex" None None = Some m
    /\ Mod.importerClass m = Some "InteropService_Importer_EnexToMd".
Proof.
  destruct (@builtin_enex_importer_stays_default sampleDefaults (fun s => s)
              [ {| reg_type := Importer;
                   reg_fields :=
                     {| Fields.format := Some "enex";
                        Fields.fileExtensions := Some ["enex"];
                        Fields.sources := None; Fields.target := None;
                        Fields.outputFormat := None; Fields.isDefault := Some true;
                        Fields.importerClass := Some "MyEnex";
                        Fields.instanceFactory := None;
                        Fields.description := None |} |} ] eq_refl)
    as [m [H1 [_ [H3 _]]]].
  now exists m.
Defined.
